(** * 3D object recognition pipeline (main.cpp): a shallow embedding

    The program is glue code around the Point Cloud Library (PCL).  The glue
    (loops, guards, the acceptance test on descriptor distances, the scaling
    of the parameters, the order of the stages in [main]) is embedded here
    function by function; every PCL entry point the program calls is a field
    of the interface [PCL] below.

    Numbers are the ones the C++ uses: [float] is IEEE binary32 and [double]
    is IEEE binary64, both taken from the Standard Library's [SpecFloat]
    (round to nearest even); [int] and [size_t] are [Z] and [nat]. *)

From Stdlib Require Import String Ascii ZArith List Bool Lia Sorted.
From Stdlib Require Import SpecFloat.
Import ListNotations.
Local Open Scope string_scope.
Local Open Scope list_scope.
Local Open Scope Z_scope.

(** ** Floating point *)

Definition isfinite (f : spec_float) : bool :=
  match f with
  | S754_zero _ | S754_finite _ _ _ => true
  | S754_infinity _ | S754_nan => false
  end.

(** Rounds a value of any binary format into the format [prec], [emax]. *)
Definition convert (prec emax : Z) (f : spec_float) : spec_float :=
  match f with
  | S754_finite s m e => binary_normalize prec emax (cond_Zopp s (Zpos m)) e s
  | _ => f
  end.

Module F32.
Definition prec := 24.
Definition emax := 128.
Definition t := spec_float.
Definition zero : t := S754_zero false.
Definition nan : t := S754_nan.
Definition of_Z (n : Z) : t := binary_normalize prec emax n 0 false.
(** [m * 2^e] rounded to binary32. *)
Definition lit (m e : Z) : t := binary_normalize prec emax m e false.
Definition add : t -> t -> t := SFadd prec emax.
Definition sub : t -> t -> t := SFsub prec emax.
Definition mul : t -> t -> t := SFmul prec emax.
Definition ltb : t -> t -> bool := SFltb.
Definition leb : t -> t -> bool := SFleb.
Definition eqb : t -> t -> bool := SFeqb.
(** C++ [a != b]: true as soon as one side is NaN. *)
Definition neqb (a b : t) : bool := negb (SFeqb a b).
End F32.

Module F64.
Definition prec := 53.
Definition emax := 1024.
Definition t := spec_float.
Definition zero : t := S754_zero false.
Definition of_Z (n : Z) : t := binary_normalize prec emax n 0 false.
Definition of_float (f : F32.t) : t := convert prec emax f.
Definition add : t -> t -> t := SFadd prec emax.
Definition div : t -> t -> t := SFdiv prec emax.
Definition sqrt : t -> t := SFsqrt prec emax.
(** [static_cast<float>] of a double. *)
Definition to_float (d : t) : F32.t := convert F32.prec F32.emax d.
End F64.

(** ** Data (lines 17-48) *)

Module Pt.
(** [pcl::PointXYZRGBA] *)
Record t := mk { x : F32.t; y : F32.t; z : F32.t; rgba : Z }.
End Pt.
Definition PointType := Pt.t.
Definition Cloud := list PointType.

Record NormalType := mkNormal
  { normal_x : F32.t; normal_y : F32.t; normal_z : F32.t; curvature : F32.t }.

(** [pcl::ReferenceFrame]: the three axes, nine floats. *)
Record RFType := mkRF { rf_axes : list F32.t }.

(** [pcl::SHOT352]: [float descriptor[352]; float rf[9]]. *)
Record DescriptorType := mkSHOT { descriptor : list F32.t; rf : list F32.t }.

Definition SHOT352_ok (d : DescriptorType) : Prop :=
  length (descriptor d) = 352%nat /\ length (rf d) = 9%nat.

(** [d.descriptor[i]] *)
Definition descriptor_at (d : DescriptorType) (i : nat) : F32.t :=
  nth i (descriptor d) F32.zero.

(** [pcl::Correspondence (index_query, index_match, distance)] *)
Record Correspondence := mkCorr
  { index_query : Z; index_match : Z; distance : F32.t }.
Definition Correspondences := list Correspondence.

(** [Eigen::Matrix4f], row major. *)
Definition Matrix4f := list (list F32.t).

(** The tunable parameters (lines 28-33). *)
Record Params := mkParams
  { model_ss_ : F32.t; scene_ss_ : F32.t; rf_rad_ : F32.t;
    descr_rad_ : F32.t; cg_size_ : F32.t; cg_thresh_ : F32.t }.

Definition default_params : Params :=
  mkParams (F32.of_Z 10) (F32.of_Z 30) (F32.of_Z 15)
           (F32.of_Z 20) (F32.of_Z 10) (F32.of_Z 5).

(** File names and program behaviour (lines 22-27). *)
Record Options := mkOptions
  { model_filename_ : string; scene_filename_ : string;
    show_keypoints_ : bool; show_correspondences_ : bool }.

(** Point clouds and what is computed from them (lines 36-44). *)
Record Clouds := mkClouds
  { model : Cloud; model_keypoints : Cloud;
    scene : Cloud; scene_keypoints : Cloud;
    model_normals : list NormalType; scene_normals : list NormalType;
    model_descriptors : list DescriptorType;
    scene_descriptors : list DescriptorType;
    model_scene_corrs : Correspondences }.

(** Results (lines 47-48). *)
Record Results := mkResults
  { rototranslations : list Matrix4f;
    clustered_corrs : list Correspondences }.

(** The global variables of the program. *)
Record Globals := mkGlobals
  { opts : Options; params : Params; clouds : Clouds; results : Results }.

Definition initial_globals : Globals :=
  mkGlobals (mkOptions EmptyString EmptyString false false) default_params
            (mkClouds [] [] [] [] [] [] [] [] []) (mkResults [] []).

Definition set_opts (o : Options) (g : Globals) : Globals :=
  mkGlobals o (params g) (clouds g) (results g).
Definition set_params (p : Params) (g : Globals) : Globals :=
  mkGlobals (opts g) p (clouds g) (results g).
Definition set_clouds (c : Clouds) (g : Globals) : Globals :=
  mkGlobals (opts g) (params g) c (results g).
Definition set_results (r : Results) (g : Globals) : Globals :=
  mkGlobals (opts g) (params g) (clouds g) r.

(** ** The PCL entry points the program calls

    A k-nearest-neighbour search returns the number of neighbours found and
    fills two vectors (indices, squared distances) of that length: here one
    list of pairs, whose length is the returned [int].  A loader returns
    [None] where the C++ call returns a negative value. *)
Class PCL := mkPCL
  { (* pcl::console *)
    find_switch : list string -> string -> bool;
    parse_file_extension_argument : list string -> string -> list Z;
    parse_argument : list string -> string -> F32.t -> F32.t;
    (* pcl::io *)
    loadPCDFile : string -> option Cloud;
    (* pcl::search::KdTree<PointType>, built on a cloud, queried by index *)
    nearestKSearch_index : Cloud -> nat -> Z -> list (Z * F32.t);
    (* pcl::KdTreeFLANN<DescriptorType>, built on descriptors, queried by value *)
    nearestKSearch :
      list DescriptorType -> DescriptorType -> Z -> list (Z * F32.t);
    (* pcl::NormalEstimationOMP, with the k of setKSearch *)
    normal_estimation : Z -> Cloud -> list NormalType;
    (* pcl::UniformSampling: input cloud, radius *)
    uniform_sampling : Cloud -> F32.t -> Cloud;
    (* pcl::SHOTEstimationOMP: radius, keypoints, normals, search surface *)
    shot_estimation :
      F32.t -> Cloud -> list NormalType -> Cloud -> list DescriptorType;
    (* pcl::BOARDLocalReferenceFrameEstimation: same arguments *)
    board_estimation :
      F32.t -> Cloud -> list NormalType -> Cloud -> list RFType;
    (* pcl::Hough3DGrouping::recognize: bin size, threshold, model keypoints
       and frames, scene keypoints and frames, correspondences; the two
       output vectors *)
    recognize :
      F32.t -> F32.t -> Cloud -> list RFType -> Cloud -> list RFType ->
      Correspondences -> list Matrix4f * list Correspondences;
    (* pcl::transformPointCloud with an offset and a rotation quaternion *)
    transformPointCloud : Cloud -> list F32.t -> list F32.t -> Cloud }.

(** ** Control: [exit], out-of-range accesses, and the lines [main] prints

    The state of a run is the global variables together with the stage lines
    [main] has printed so far (the text before the timer value; the clock is
    not part of the model).  A computation returns normally, leaves the
    program through [exit], or faults on an access out of range
    ([operator[]] out of bounds, an exception of [at]). *)

Record World := mkWorld { globals : Globals; printed : list string }.

Inductive Outcome (A : Type) : Type :=
| Done (a : A) (w : World)
| Exit (code : Z) (w : World)
| Fault (w : World).
Arguments Done {A} a w.
Arguments Exit {A} code w.
Arguments Fault {A} w.

Definition M (A : Type) : Type := World -> Outcome A.

Definition ret {A : Type} (a : A) : M A := fun w => Done a w.
Definition bind {A B : Type} (m : M A) (k : A -> M B) : M B :=
  fun w => match m w with
           | Done a w' => k a w'
           | Exit code w' => Exit code w'
           | Fault w' => Fault w'
           end.
Definition exit {A : Type} (code : Z) : M A := fun w => Exit code w.
Definition fault {A : Type} : M A := fun w => Fault w.
Definition get : M Globals := fun w => Done (globals w) w.
Definition modify (f : Globals -> Globals) : M unit :=
  fun w => Done tt (mkWorld (f (globals w)) (printed w)).
Definition say (line : string) : M unit :=
  fun w => Done tt (mkWorld (globals w) (printed w ++ [line])).

Notation "x <- m ;; k" := (bind m (fun x => k))
  (at level 61, m at next level, right associativity).
Notation "m ;; k" := (bind m (fun _ => k))
  (at level 61, right associativity).

(** [for (size_t i = 0; i < n; ++i) body i] *)
Fixpoint for_each {A : Type} (body : A -> M unit) (l : list A) : M unit :=
  match l with
  | [] => ret tt
  | a :: l' => body a ;; for_each body l'
  end.

(** The world a computation stops in, however it stops. *)
Definition final_world {A : Type} (o : Outcome A) : World :=
  match o with Done _ w | Exit _ w | Fault w => w end.

(** The elements of a vector with their indices. *)
Definition indexed {A : Type} (l : list A) : list (nat * A) :=
  combine (seq 0 (length l)) l.

Section Program.
Context {pcl : PCL}.

(** ** computeCloudResolution (lines 115-145) *)

(** One turn of the loop of lines 126-139, on the state [(res, n_points)].
    [sqrt] is the C library's, on the [float] promoted to [double];
    [n_points] is an [int] that counts points, below 2^31. *)
Definition resolution_step (cloud : Cloud)
    (st : F64.t * Z) (ip : nat * PointType) : F64.t * Z :=
  let '(res, n_points) := st in
  let '(i, p) := ip in
  if negb (isfinite (Pt.x p)) then st
  else
    let found := nearestKSearch_index cloud i 2 in
    if Z.of_nat (length found) =? 2
    then (F64.add res (F64.sqrt (F64.of_float (snd (nth 1 found (0, F32.zero))))),
          n_points + 1)
    else st.

Definition computeCloudResolution (cloud : Cloud) : F64.t :=
  let '(res, n_points) :=
    fold_left (resolution_step cloud) (indexed cloud) (F64.zero, 0) in
  if negb (n_points =? 0) then F64.div res (F64.of_Z n_points) else res.

(** ** setUpResolution (lines 163-180) *)

Definition scale_params (resolution : F32.t) (p : Params) : Params :=
  if F32.neqb resolution F32.zero
  then mkParams (F32.mul (model_ss_ p) resolution)
                (F32.mul (scene_ss_ p) resolution)
                (F32.mul (rf_rad_ p) resolution)
                (F32.mul (descr_rad_ p) resolution)
                (F32.mul (cg_size_ p) resolution)
                (cg_thresh_ p)
  else p.

Definition model_resolution (g : Globals) : F32.t :=
  F64.to_float (computeCloudResolution (model (clouds g))).

Definition setUpResolution (g : Globals) : Globals :=
  let resolution := model_resolution g in
  set_params (scale_params resolution (params g)) g.

(** ** The remaining stages, as state transformers *)

Definition set_normals (mn sn : list NormalType) (c : Clouds) : Clouds :=
  mkClouds (model c) (model_keypoints c) (scene c) (scene_keypoints c)
           mn sn (model_descriptors c) (scene_descriptors c)
           (model_scene_corrs c).
Definition set_keypoints (mk sk : Cloud) (c : Clouds) : Clouds :=
  mkClouds (model c) mk (scene c) sk (model_normals c) (scene_normals c)
           (model_descriptors c) (scene_descriptors c) (model_scene_corrs c).
Definition set_descriptors (md sd : list DescriptorType) (c : Clouds) : Clouds :=
  mkClouds (model c) (model_keypoints c) (scene c) (scene_keypoints c)
           (model_normals c) (scene_normals c) md sd (model_scene_corrs c).
Definition set_corrs (cs : Correspondences) (c : Clouds) : Clouds :=
  mkClouds (model c) (model_keypoints c) (scene c) (scene_keypoints c)
           (model_normals c) (scene_normals c)
           (model_descriptors c) (scene_descriptors c) cs.
Definition set_model (m : Cloud) (c : Clouds) : Clouds :=
  mkClouds m (model_keypoints c) (scene c) (scene_keypoints c)
           (model_normals c) (scene_normals c)
           (model_descriptors c) (scene_descriptors c) (model_scene_corrs c).
Definition set_scene (s : Cloud) (c : Clouds) : Clouds :=
  mkClouds (model c) (model_keypoints c) s (scene_keypoints c)
           (model_normals c) (scene_normals c)
           (model_descriptors c) (scene_descriptors c) (model_scene_corrs c).

(** computeNormals (lines 182-191) *)
Definition computeNormals (g : Globals) : Globals :=
  let c := clouds g in
  set_clouds (set_normals (normal_estimation 10 (model c))
                          (normal_estimation 10 (scene c)) c) g.

(** extractKeypoints (lines 193-204) *)
Definition extractKeypoints (g : Globals) : Globals :=
  let c := clouds g in
  set_clouds (set_keypoints (uniform_sampling (model c) (model_ss_ (params g)))
                            (uniform_sampling (scene c) (scene_ss_ (params g)))
                            c) g.

(** computeDescriptorForKeypoints (lines 206-219) *)
Definition computeDescriptorForKeypoints (g : Globals) : Globals :=
  let c := clouds g in
  let r := descr_rad_ (params g) in
  set_clouds
    (set_descriptors
       (shot_estimation r (model_keypoints c) (model_normals c) (model c))
       (shot_estimation r (scene_keypoints c) (scene_normals c) (scene c))
       c) g.

(** ** findModelSpaceCorrespondences (lines 221-243) *)

(** [static_cast<int>] of a [size_t]: reduction to 32 bits, two's complement. *)
Definition static_cast_int (n : Z) : Z :=
  (n + 2 ^ 31) mod 2 ^ 32 - 2 ^ 31.

(** The acceptance threshold [0.25f]. *)
Definition max_sqr_dist : F32.t := F32.lit 1 (-2).

(** One turn of the loop of lines 227-241, on [model_scene_corrs]. *)
Definition match_step (model_descr : list DescriptorType)
    (corrs : Correspondences) (id : nat * DescriptorType) : Correspondences :=
  let '(i, d) := id in
  if negb (isfinite (descriptor_at d 0)) then corrs
  else
    let found := nearestKSearch model_descr d 1 in
    let found_neighs := Z.of_nat (length found) in
    let neigh_index := fst (nth 0 found (0, F32.zero)) in
    let neigh_sqr_dist := snd (nth 0 found (0, F32.zero)) in
    if (found_neighs =? 1) && F32.ltb neigh_sqr_dist max_sqr_dist
    then corrs ++ [mkCorr neigh_index (static_cast_int (Z.of_nat i)) neigh_sqr_dist]
    else corrs.

Definition match_descriptors (model_descr scene_descr : list DescriptorType)
    (corrs : Correspondences) : Correspondences :=
  fold_left (match_step model_descr) (indexed scene_descr) corrs.

Definition findModelSpaceCorrespondences (g : Globals) : Globals :=
  let c := clouds g in
  set_clouds
    (set_corrs (match_descriptors (model_descriptors c) (scene_descriptors c)
                                  (model_scene_corrs c)) c) g.

(** ** clusteringUsingHough3D (lines 245-277) *)
Definition clusteringUsingHough3D (g : Globals) : Globals :=
  let c := clouds g in
  let rf_rad := rf_rad_ (params g) in
  let model_rf :=
    board_estimation rf_rad (model_keypoints c) (model_normals c) (model c) in
  let scene_rf :=
    board_estimation rf_rad (scene_keypoints c) (scene_normals c) (scene c) in
  let '(transforms, clusters) :=
    recognize (cg_size_ (params g)) (cg_thresh_ (params g))
              (model_keypoints c) model_rf (scene_keypoints c) scene_rf
              (model_scene_corrs c) in
  set_results (mkResults transforms clusters) g.

(** ** parseCommandLine (lines 73-113) *)

Definition argv_at (argv : list string) (i : Z) : string :=
  nth (Z.to_nat i) argv EmptyString.

Definition parse_params (argv : list string) (p : Params) : Params :=
  mkParams (parse_argument argv "--model_ss" (model_ss_ p))
           (parse_argument argv "--scene_ss" (scene_ss_ p))
           (parse_argument argv "--rf_rad" (rf_rad_ p))
           (parse_argument argv "--descr_rad" (descr_rad_ p))
           (parse_argument argv "--cg_size" (cg_size_ p))
           (parse_argument argv "--cg_thresh" (cg_thresh_ p)).

Definition parseCommandLine (argv : list string) : M unit :=
  if find_switch argv "-h" then exit 0
  else
    let filenames := parse_file_extension_argument argv ".pcd" in
    if negb (length filenames =? 2)%nat then exit (-1)
    else
      modify (fun g =>
        let o := opts g in
        set_params (parse_params argv (params g))
          (set_opts
             (mkOptions
                (argv_at argv (nth 0 filenames 0))
                (argv_at argv (nth 1 filenames 0))
                (if find_switch argv "-k" then true else show_keypoints_ o)
                (if find_switch argv "-c" then true
                 else show_correspondences_ o)) g)).

(** ** loadClouds (lines 147-161) *)
Definition loadClouds : M bool :=
  g <- get ;;
  match loadPCDFile (model_filename_ (opts g)) with
  | None => ret false
  | Some m =>
    modify (fun g => set_clouds (set_model m (clouds g)) g) ;;
    match loadPCDFile (scene_filename_ (opts g)) with
    | None => ret false
    | Some s =>
      modify (fun g => set_clouds (set_scene s (clouds g)) g) ;;
      ret true
    end
  end.

(** ** outputResults (lines 279-297): the accesses of the loop *)

(** [v[i]], undefined out of range. *)
Definition index {A : Type} (v : list A) (i : nat) : M A :=
  match nth_error v i with
  | Some a => ret a
  | None => fault
  end.

Definition outputResults : M unit :=
  g <- get ;;
  let r := results g in
  for_each (fun i =>
      _ <- index (clustered_corrs r) i ;;
      _ <- index (rototranslations r) i ;;
      ret tt)
    (seq 0 (length (rototranslations r))).

(** [v.at(i)] for an [int] index: out of range when negative. *)
Definition at_int {A : Type} (v : list A) (i : Z) : M A :=
  if i <? 0 then fault else index v (Z.to_nat i).

(** ** visualization (lines 299-357): the accesses of the loops

    The viewer itself (what it draws, and its event loop, which runs until
    the window is closed) has no effect on the program's variables. *)
Definition visualization : M unit :=
  g <- get ;;
  let c := clouds g in
  let o := opts g in
  let r := results g in
  let off_scene_model_keypoints :=
    if show_correspondences_ o || show_keypoints_ o
    then transformPointCloud (model_keypoints c)
           [F32.of_Z (-1); F32.zero; F32.zero]
           [F32.of_Z 1; F32.zero; F32.zero; F32.zero]
    else [] in
  for_each (fun i =>
      _ <- index (rototranslations r) i ;;
      if show_correspondences_ o
      then
        corrs_i <- index (clustered_corrs r) i ;;
        for_each (fun j =>
            corr <- index corrs_i j ;;
            _ <- at_int off_scene_model_keypoints (index_query corr) ;;
            _ <- at_int (scene_keypoints c) (index_match corr) ;;
            ret tt)
          (seq 0 (length corrs_i))
      else ret tt)
    (seq 0 (length (rototranslations r))).

(** ** main (lines 359-406) *)

(** Lines 373-405: what [main] does once the clouds are loaded. *)
Definition pipeline : M Z :=
  say "load clouds: " ;;
  modify setUpResolution ;;
  say "set up resolution: " ;;
  modify computeNormals ;;
  say "compute normals: " ;;
  modify extractKeypoints ;;
  say "extract keypoints: " ;;
  modify computeDescriptorForKeypoints ;;
  say "compute descriptor for keypoints: " ;;
  modify findModelSpaceCorrespondences ;;
  say "find model-space correspondences:" ;;
  modify clusteringUsingHough3D ;;
  say "clustering using Hough3D:" ;;
  outputResults ;;
  say "output results:" ;;
  visualization ;;
  ret 0.

Definition main (argv : list string) : M Z :=
  say "Recognition begin" ;;
  parseCommandLine argv ;;
  ok <- loadClouds ;;
  if negb ok then ret (-1) else pipeline.

(** A run of the program from its initial state. *)
Definition run (argv : list string) : Outcome Z :=
  main argv (mkWorld initial_globals []).

(** The world in which [main] has printed its first line only. *)
Definition begun : World := mkWorld initial_globals ["Recognition begin"].

(** The global variables once the command line is parsed. *)
Definition parsed (argv : list string) : Globals :=
  let filenames := parse_file_extension_argument argv ".pcd" in
  set_params (parse_params argv default_params)
    (set_opts
       (mkOptions (argv_at argv (nth 0 filenames 0))
                  (argv_at argv (nth 1 filenames 0))
                  (if find_switch argv "-k" then true else false)
                  (if find_switch argv "-c" then true else false))
       initial_globals).

(** The global variables after the stages, from setUpResolution to the
    clustering. *)
Definition after_stages (g : Globals) : Globals :=
  clusteringUsingHough3D
    (findModelSpaceCorrespondences
       (computeDescriptorForKeypoints
          (extractKeypoints (computeNormals (setUpResolution g))))).

(** ** The statements of the specification about these functions *)

(** The distance from the point of index [fst ip] to the second neighbour
    its query returns. *)
Definition second_dist (cloud : Cloud) (ip : nat * PointType) : F64.t :=
  F64.sqrt (F64.of_float
    (snd (nth 1 (nearestKSearch_index cloud (fst ip) 2) (0, F32.zero)))).

(** The point qualifies and its 2-nearest-neighbour query returns exactly 2
    results. *)
Definition counted (qualifies : PointType -> bool) (cloud : Cloud)
    (ip : nat * PointType) : bool :=
  qualifies (snd ip) &&
  (Z.of_nat (length (nearestKSearch_index cloud (fst ip) 2)) =? 2).

Definition second_neighbour_distances (qualifies : PointType -> bool)
    (cloud : Cloud) : list F64.t :=
  map (second_dist cloud) (filter (counted qualifies cloud) (indexed cloud)).

(** The mean of a list of doubles, 0 for the empty list. *)
Definition mean (ds : list F64.t) : F64.t :=
  match ds with
  | [] => F64.zero
  | _ => F64.div (fold_left F64.add ds F64.zero) (F64.of_Z (Z.of_nat (length ds)))
  end.

(** The mean, over the points that [qualifies] accepts and whose
    2-nearest-neighbour query returns exactly 2 results, of the distance to
    the second neighbour; 0 when there is no such point. *)
Definition mean_second_neighbour_distance (qualifies : PointType -> bool)
    (cloud : Cloud) : F64.t :=
  mean (second_neighbour_distances qualifies cloud).

End Program.

(** The x coordinate of the point is finite. *)
Definition finite_x (p : PointType) : bool := isfinite (Pt.x p).

(** All three coordinates of the point are finite. *)
Definition finite_coordinates (p : PointType) : bool :=
  isfinite (Pt.x p) && isfinite (Pt.y p) && isfinite (Pt.z p).

(** Some entry of the descriptor is not finite. *)
Definition has_non_finite_entry (d : DescriptorType) : Prop :=
  exists k, (k < 352)%nat /\ isfinite (descriptor_at d k) = false.

(** Every one of the six parameters of [p'] is the one of [p] multiplied by
    the resolution. *)
Definition all_six_scaled (resolution : F32.t) (p p' : Params) : Prop :=
  model_ss_ p' = F32.mul (model_ss_ p) resolution /\
  scene_ss_ p' = F32.mul (scene_ss_ p) resolution /\
  rf_rad_ p' = F32.mul (rf_rad_ p) resolution /\
  descr_rad_ p' = F32.mul (descr_rad_ p) resolution /\
  cg_size_ p' = F32.mul (cg_size_ p) resolution /\
  cg_thresh_ p' = F32.mul (cg_thresh_ p) resolution.

(** The same model keypoint can be matched by several scene keypoints. *)
Definition many_to_one_possible : Prop :=
  exists (search : PCL) (md sd : list DescriptorType) (c1 c2 : Correspondence),
    In c1 (@match_descriptors search md sd []) /\
    In c2 (@match_descriptors search md sd []) /\
    index_match c1 <> index_match c2 /\
    index_query c1 = index_query c2.

(** One of the five radii is zero or negative. *)
Definition some_radius_not_positive (p : Params) : bool :=
  F32.leb (model_ss_ p) F32.zero || F32.leb (scene_ss_ p) F32.zero ||
  F32.leb (rf_rad_ p) F32.zero || F32.leb (descr_rad_ p) F32.zero ||
  F32.leb (cg_size_ p) F32.zero.

(** The lines [main] prints after the stages of the recognition pipeline,
    from the loading of the clouds to the clustering. *)
Definition stage_lines : list string :=
  ["load clouds: "; "set up resolution: "; "compute normals: ";
   "extract keypoints: "; "compute descriptor for keypoints: ";
   "find model-space correspondences:"; "clustering using Hough3D:"].

(** The run went through every stage: it did not leave through [exit], and
    the stage lines were printed, in order, after what was there before. *)
Definition ran_every_stage (before : list string) (o : Outcome Z) : Prop :=
  (forall code w, o <> Exit code w) /\
  exists rest, printed (final_world o) = before ++ stage_lines ++ rest.

(** The run stopped before any stage: no stage line was printed. *)
Definition stopped_before_stages (o : Outcome Z) : Prop :=
  printed (final_world o) = ["Recognition begin"].

(** ** The Hough clusterer, from the specification *)

Module Hough.
(** Modelled from the spec: a cubic bin of the voting space (section 4.7,
    step 2), by its integer coordinates. *)
Definition Bin : Type := Z * Z * Z.

Definition bin_eqb (a b : Bin) : bool :=
  let '(a1, a2, a3) := a in
  let '(b1, b2, b3) := b in
  (a1 =? b1) && (a2 =? b2) && (a3 =? b3).

(** Modelled from the spec: the voting space (section 4.7, step 2).  For
    every bin that received a vote, in the order the bins were first voted
    for, the accumulated votes and the correspondences that voted. *)
Definition Space : Type := list (Bin * (F32.t * Correspondences)).

(** Modelled from the spec: one vote of weight [w] by [c] for the bin [b]. *)
Fixpoint vote (h : Space) (b : Bin) (w : F32.t) (c : Correspondence) : Space :=
  match h with
  | [] => [(b, (w, [c]))]
  | (b', (n, cs)) :: h' =>
    if bin_eqb b b' then (b', (F32.add n w, cs ++ [c])) :: h'
    else (b', (n, cs)) :: vote h' b w c
  end.

Section Recognize.
(** Steps 1-2 of the voting (the bins a correspondence votes for, with
    the weight given to each) and step 4 (the least-squares fit, [None]
    for a cluster that determines no rigid transform) are numerical
    kernels taken as given. *)
Variable cast_votes :
  F32.t -> Cloud -> list RFType -> Cloud -> list RFType ->
  Correspondence -> list (Bin * F32.t).
Variable fit_transform : Cloud -> Cloud -> Correspondences -> option Matrix4f.

(** Modelled from the spec: all correspondences vote (section 4.7, steps
    1-2). *)
Definition accumulate (votes_of : Correspondence -> list (Bin * F32.t))
    (corrs : Correspondences) : Space :=
  fold_left
    (fun h c => fold_left (fun h' bw => vote h' (fst bw) (snd bw) c)
                          (votes_of c) h)
    corrs [].

(** Modelled from the spec: the bins whose accumulated votes exceed the
    clustering threshold (section 4.7, step 3). *)
Definition accepted (thresh : F32.t) (h : Space) : Space :=
  filter (fun e => F32.ltb thresh (fst (snd e))) h.

(** Modelled from the spec: emission (section 4.7, steps 4-5).  One
    transform and one correspondence set per accepted bin whose fit
    succeeds, pushed onto the two output vectors. *)
Definition emit (fit : Correspondences -> option Matrix4f)
    (out : list Matrix4f * list Correspondences)
    (e : Bin * (F32.t * Correspondences))
    : list Matrix4f * list Correspondences :=
  match fit (snd (snd e)) with
  | Some T => (fst out ++ [T], snd out ++ [snd (snd e)])
  | None => out
  end.

(** Modelled from the spec: [pcl::Hough3DGrouping::recognize], which is
    called at line 276 and whose code is not part of the program's
    sources.  After section 4.7 of the specification: every
    correspondence votes, the bins whose accumulated votes exceed the
    threshold are selected, a transform is fitted to each selected bin, a
    bin without a fit is rejected, and one pose hypothesis is emitted per
    accepted bin. *)
Definition recognize
    (bin_size thresh : F32.t)
    (model_kp : Cloud) (model_rf : list RFType)
    (scene_kp : Cloud) (scene_rf : list RFType)
    (corrs : Correspondences) : list Matrix4f * list Correspondences :=
  let votes_of := cast_votes bin_size model_kp model_rf scene_kp scene_rf in
  fold_left (emit (fit_transform model_kp scene_kp))
            (accepted thresh (accumulate votes_of corrs))
            ([], []).
End Recognize.
End Hough.

(** ** The keypoint sampler, from the specification *)

Module Sampler.
Definition sqr (a : F32.t) : F32.t := F32.mul a a.

(** The squared Euclidean distance of two points, in binary32. *)
Definition sqr_dist (p q : PointType) : F32.t :=
  F32.add (F32.add (sqr (F32.sub (Pt.x p) (Pt.x q)))
                   (sqr (F32.sub (Pt.y p) (Pt.y q))))
          (sqr (F32.sub (Pt.z p) (Pt.z q))).

Definition dist (p q : PointType) : F32.t :=
  SFsqrt F32.prec F32.emax (sqr_dist p q).

(** Modelled from the spec: [q] is within the radius [r] of [p]
    (section 4.3). *)
Definition within (r : F32.t) (p q : PointType) : bool :=
  F32.leb (dist p q) r.

(** Modelled from the spec: marks as visited every point of the cloud
    within [r] of [p] (section 4.3). *)
Definition mark (r : F32.t) (cloud : Cloud) (p : PointType)
    (visited : list bool) : list bool :=
  map (fun qv => snd qv || within r p (fst qv)) (combine cloud visited).

(** Modelled from the spec: the points of [todo] in turn; one that is not
    visited yet is kept as a keypoint and marks its neighbourhood
    (section 4.3). *)
Fixpoint decimate_loop (r : F32.t) (cloud : Cloud)
    (todo : list (nat * PointType)) (visited : list bool)
    (keypoints : Cloud) : Cloud :=
  match todo with
  | [] => keypoints
  | (i, p) :: todo' =>
    if nth i visited true
    then decimate_loop r cloud todo' visited keypoints
    else decimate_loop r cloud todo' (mark r cloud p visited)
                       (keypoints ++ [p])
  end.

(** Modelled from the spec: the keypoint sampler
    ([pcl::UniformSampling::filter], called at lines 197 and 202, whose
    code is not part of the program's sources).  After section 4.3 of the
    specification: repeatedly pick an unvisited point (here the first one
    in the order of the cloud), keep it as a keypoint, and mark all points
    within the radius as visited; after section 3, entries with a
    non-finite coordinate are skipped (they start out visited). *)
Definition decimate (cloud : Cloud) (r : F32.t) : Cloud :=
  decimate_loop r cloud (indexed cloud)
                (map (fun p => negb (finite_coordinates p)) cloud) [].

(** What the loop maintains. *)

(** Some keypoint of [ks] has [q] within its radius. *)
Definition covered (r : F32.t) (ks : Cloud) (q : PointType) : bool :=
  existsb (fun k => within r k q) ks.

(** No keypoint of [ks] has a later one within its radius. *)
Definition apart (r : F32.t) (ks : Cloud) : Prop :=
  forall i j a b, (i < j)%nat ->
    nth_error ks i = Some a -> nth_error ks j = Some b ->
    within r a b = false.

(** The visited flags say which points are non-finite or covered. *)
Definition flags_ok (r : F32.t) (cloud : Cloud) (visited : list bool)
    (ks : Cloud) : Prop :=
  forall j q, nth_error cloud j = Some q ->
    nth j visited true = negb (finite_coordinates q) || covered r ks q.

End Sampler.

(** ** An executable instance of the interface

    Used to run the program on concrete inputs.  The searches are
    exhaustive and compute squared Euclidean distances in binary32, over the
    stored entries whose coordinates are all finite; the command line holds
    whole numbers; files are looked up in a table.  Normal, frame and
    descriptor estimation are fixed-answer stand-ins: no statement below
    depends on what they compute. *)

Module Demo.
Fixpoint insert_by_dist (e : Z * F32.t) (l : list (Z * F32.t))
    : list (Z * F32.t) :=
  match l with
  | [] => [e]
  | h :: t => if F32.ltb (snd e) (snd h) then e :: l
              else h :: insert_by_dist e t
  end.

Definition knn {A : Type} (valid : A -> bool) (sqr_dist : A -> A -> F32.t)
    (stored : list A) (query : A) (k : Z) : list (Z * F32.t) :=
  firstn (Z.to_nat k)
    (fold_left
       (fun acc ia =>
          if valid (snd ia)
          then insert_by_dist (Z.of_nat (fst ia), sqr_dist query (snd ia)) acc
          else acc)
       (indexed stored) []).

Definition knn_index (cloud : Cloud) (i : nat) (k : Z) : list (Z * F32.t) :=
  match nth_error cloud i with
  | Some q => knn finite_coordinates Sampler.sqr_dist cloud q k
  | None => []
  end.

Definition descr_sqr_dist (a b : DescriptorType) : F32.t :=
  fold_left (fun acc xy => F32.add acc (Sampler.sqr (F32.sub (fst xy) (snd xy))))
            (combine (descriptor a) (descriptor b)) F32.zero.

Definition finite_descr (d : DescriptorType) : bool :=
  forallb isfinite (descriptor d).

(* pcl::console, on whole numbers *)
Definition digit_of (c : ascii) : option Z :=
  let n := Z.of_nat (nat_of_ascii c) in
  if (48 <=? n) && (n <=? 57) then Some (n - 48) else None.

Fixpoint parse_digits (s : string) (acc : Z) : Z :=
  match s with
  | EmptyString => acc
  | String c s' =>
    match digit_of c with
    | Some d => parse_digits s' (10 * acc + d)
    | None => acc
    end
  end.

Definition atof (s : string) : F32.t :=
  match s with
  | String "-" s' => F32.of_Z (- parse_digits s' 0)
  | _ => F32.of_Z (parse_digits s 0)
  end.

Definition has_switch (argv : list string) (name : string) : bool :=
  existsb (String.eqb name) (tl argv).

Definition has_extension (ext s : string) : bool :=
  (String.length ext <? String.length s)%nat &&
  String.eqb (substring (String.length s - String.length ext)
                        (String.length ext) s) ext.

Definition files_with_extension (argv : list string) (ext : string) : list Z :=
  map (fun ia => Z.of_nat (fst ia))
      (filter (fun ia => has_extension ext (snd ia)) (tl (indexed argv))).

Fixpoint value_after (args : list string) (name : string) : option string :=
  match args with
  | a :: ((v :: _) as rest) =>
    if String.eqb a name then Some v else value_after rest name
  | _ => None
  end.

Definition float_argument (argv : list string) (name : string) (val : F32.t)
    : F32.t :=
  match value_after (tl argv) name with
  | Some v => atof v
  | None => val
  end.

Definition load (files : list (string * Cloud)) (name : string) : option Cloud :=
  option_map snd (find (fun f => String.eqb (fst f) name) files).

Definition flat_normals (k : Z) (cloud : Cloud) : list NormalType :=
  map (fun _ => mkNormal F32.zero F32.zero (F32.of_Z 1) F32.zero) cloud.

Definition axis_frames (r : F32.t) (kp : Cloud) (n : list NormalType)
    (surface : Cloud) : list RFType :=
  map (fun _ => mkRF (map F32.of_Z [1; 0; 0; 0; 1; 0; 0; 0; 1])) kp.

(** The descriptor of a keypoint: its three coordinates, then zeros. *)
Definition coordinate_descriptors (r : F32.t) (kp : Cloud)
    (n : list NormalType) (surface : Cloud) : list DescriptorType :=
  map (fun p => mkSHOT ([Pt.x p; Pt.y p; Pt.z p] ++ repeat F32.zero 349)
                       (repeat F32.zero 9)) kp.

(** Every correspondence votes with weight 1 for the bin of its model
    index; a cluster of three or more is fitted by the identity. *)
Definition index_votes (bin_size : F32.t) (mk : Cloud) (mrf : list RFType)
    (sk : Cloud) (srf : list RFType) (c : Correspondence)
    : list (Hough.Bin * F32.t) :=
  [((index_query c, 0, 0), F32.of_Z 1)].

Definition identity4 : Matrix4f :=
  map (map F32.of_Z) [[1; 0; 0; 0]; [0; 1; 0; 0]; [0; 0; 1; 0]; [0; 0; 0; 1]].

Definition fit_identity (mk sk : Cloud) (cs : Correspondences)
    : option Matrix4f :=
  if (3 <=? length cs)%nat then Some identity4 else None.

Definition translate (cloud : Cloud) (offset quaternion : list F32.t) : Cloud :=
  map (fun p => Pt.mk (F32.add (Pt.x p) (nth 0 offset F32.zero))
                      (F32.add (Pt.y p) (nth 1 offset F32.zero))
                      (F32.add (Pt.z p) (nth 2 offset F32.zero))
                      (Pt.rgba p)) cloud.

Definition pcl_with
    (search : list DescriptorType -> DescriptorType -> Z -> list (Z * F32.t))
    (files : list (string * Cloud)) : PCL :=
  mkPCL has_switch files_with_extension float_argument (load files)
        knn_index search
        flat_normals Sampler.decimate coordinate_descriptors axis_frames
        (Hough.recognize index_votes fit_identity) translate.

Definition pcl : list (string * Cloud) -> PCL :=
  pcl_with (knn finite_descr descr_sqr_dist).

(** A second search over descriptors.  It keeps a candidate only when its
    squared distance compares below the largest float, and answers with as
    many entries as asked for (as many as are stored, if fewer): an entry
    for which no candidate was kept is what the caller's vectors are
    created with at lines 229-230, index 0 at distance 0. *)
Definition knn_kept {A : Type} (valid : A -> bool)
    (sqr_dist : A -> A -> F32.t) (stored : list A) (query : A) (k : Z)
    : list (Z * F32.t) :=
  let all := knn valid sqr_dist stored query (Z.of_nat (length stored)) in
  let kept :=
    filter (fun e => F32.ltb (snd e) (SFmax_float F32.prec F32.emax)) all in
  firstn (Nat.min (Z.to_nat k) (length all))
         (kept ++ repeat (0, F32.zero) (length all)).

Definition pcl_kept : list (string * Cloud) -> PCL :=
  pcl_with (knn_kept finite_descr descr_sqr_dist).

Definition shot (entries : list F32.t) : DescriptorType :=
  mkSHOT (entries ++ repeat F32.zero (352 - length entries))
         (repeat F32.zero 9).

Definition pt (a b c : Z) : PointType :=
  Pt.mk (F32.of_Z a) (F32.of_Z b) (F32.of_Z c) 0.
End Demo.

(** ** Inputs for the examples *)

(** A model of two points at distance 2, with the default parameters. *)
Definition two_points : Cloud := [Demo.pt 0 0 0; Demo.pt 2 0 0].
Definition two_points_loaded : Globals :=
  set_clouds (set_model two_points (clouds initial_globals)) initial_globals.

(** A computation that only reads: it returns in the world it started in, or
    faults there. *)
Definition reads_only {A : Type} (m : M A) : Prop :=
  forall w, (exists a, m w = Done a w) \/ m w = Fault w.

(** A model of one point: its resolution is 0. *)
Definition one_point_loaded : Globals :=
  set_clouds (set_model [Demo.pt 1 0 0] (clouds initial_globals))
             initial_globals.

(** A cloud whose first point has a NaN y coordinate and a finite x. *)
Definition cloud_with_nan_y : Cloud :=
  [Pt.mk F32.zero F32.nan F32.zero 0; Demo.pt 1 0 0; Demo.pt 3 0 0].

(** Five points on a line. *)
Definition five_points : Cloud :=
  [Demo.pt 0 0 0; Demo.pt 1 0 0; Demo.pt 2 0 0; Demo.pt 3 0 0; Demo.pt 5 0 0].

(** A descriptor whose first entry is 0 and whose second entry is NaN. *)
Definition descriptor_with_later_nan : DescriptorType :=
  Demo.shot [F32.zero; F32.nan].

(** A descriptor whose first entry is NaN. *)
Definition descriptor_with_first_nan : DescriptorType :=
  Demo.shot [F32.nan].

(** A command line that sets the model sampling radius to -1. *)
Definition negative_radius_argv : list string :=
  ["recognize"; "model.pcd"; "scene.pcd"; "--model_ss"; "-1"].

Definition two_files : list (string * Cloud) :=
  [("model.pcd", two_points); ("scene.pcd", two_points)].

(** Six correspondences with the same model keypoint. *)
Definition six_votes_loaded : Globals :=
  set_clouds
    (set_corrs (map (fun i => mkCorr 0 i F32.zero) [0; 1; 2; 3; 4; 5])
               (clouds initial_globals))
    initial_globals.

(** ** Further statements about the program *)

Section Accepting.
Context {pcl : PCL}.

(** The tests of lines 231 and 236 on the scene descriptor of an index: the
    first entry is finite, the search returns one neighbour, and its squared
    distance is below the threshold. *)
Definition accepts (model_descr : list DescriptorType)
    (id : nat * DescriptorType) : bool :=
  isfinite (descriptor_at (snd id) 0) &&
  (Z.of_nat (length (nearestKSearch model_descr (snd id) 1)) =? 1) &&
  F32.ltb (snd (nth 0 (nearestKSearch model_descr (snd id) 1) (0, F32.zero)))
          max_sqr_dist.

(** The Correspondence of line 238 for the scene descriptor of an index. *)
Definition corr_of (model_descr : list DescriptorType)
    (id : nat * DescriptorType) : Correspondence :=
  let found := nearestKSearch model_descr (snd id) 1 in
  mkCorr (fst (nth 0 found (0, F32.zero)))
         (static_cast_int (Z.of_nat (fst id)))
         (snd (nth 0 found (0, F32.zero))).

(** The cloud that [visualization] reads model points from at line 344. *)
Definition off_scene_keypoints (g : Globals) : Cloud :=
  if show_correspondences_ (opts g) || show_keypoints_ (opts g)
  then transformPointCloud (model_keypoints (clouds g))
         [F32.of_Z (-1); F32.zero; F32.zero]
         [F32.of_Z 1; F32.zero; F32.zero; F32.zero]
  else [].

End Accepting.

(** Both indices of the Correspondence are valid positions in clouds of
    [nm] model keypoints and [ns] scene keypoints. *)
Definition corr_in_range (nm ns : nat) (c : Correspondence) : Prop :=
  0 <= index_query c < Z.of_nat nm /\ 0 <= index_match c < Z.of_nat ns.

(** The lines of a run that returns 0. *)
Definition all_lines : list string :=
  "Recognition begin" :: stage_lines ++ ["output results:"].

(** A command line with two files and no option. *)
Definition plain_argv : list string :=
  ["recognize"; "model.pcd"; "scene.pcd"].

(** A model whose points all have a NaN x coordinate. *)
Definition all_nan_loaded : Globals :=
  set_clouds
    (set_model [Pt.mk F32.nan F32.zero F32.zero 0;
                Pt.mk F32.nan (F32.of_Z 1) F32.zero 0]
               (clouds initial_globals))
    initial_globals.

(** The model of [cloud_with_nan_y], loaded. *)
Definition nan_y_loaded : Globals :=
  set_clouds (set_model cloud_with_nan_y (clouds initial_globals))
             initial_globals.

(** Two instances, one cluster of one Correspondence, another empty, and the
    display of correspondences switched on. *)
Definition two_instances_shown : Globals :=
  mkGlobals (mkOptions EmptyString EmptyString false true) default_params
            (mkClouds [] [Demo.pt 0 0 0] [] [Demo.pt 0 0 0; Demo.pt 1 0 0]
                      [] [] [] [] [])
            (mkResults [Demo.identity4; Demo.identity4]
                       [[mkCorr 0 1 F32.zero]; []]).

(** * Proofs *)

(** ** Comparisons of floats *)

Lemma SFcompare_antisym (a b : spec_float) :
  SFcompare b a = option_map CompOpp (SFcompare a b).
Proof.
  destruct a as [sa|sa| |sa ma ea], b as [sb|sb| |sb mb eb]; simpl;
    try reflexivity;
    try (destruct sa; reflexivity);
    try (destruct sb; reflexivity);
    try (destruct sa, sb; reflexivity).
  destruct sa, sb; simpl; try reflexivity;
    rewrite (Z.compare_antisym ea eb);
    destruct (ea ?= eb) eqn:E; simpl; try reflexivity;
    rewrite (Pos.compare_cont_antisym ma mb Eq); simpl;
    try rewrite CompOpp_involutive; reflexivity.
Qed.

Lemma ltb_not_leb (a b : F32.t) : F32.ltb a b = true -> F32.leb b a = false.
Proof.
  unfold F32.ltb, F32.leb, SFltb, SFleb.
  rewrite (SFcompare_antisym a b).
  destruct (SFcompare a b) as [[]|]; simpl; congruence.
Qed.

Lemma neqb_eqb (a b : F32.t) : F32.neqb a b = negb (F32.eqb a b).
Proof. reflexivity. Qed.

(** ** setUpResolution *)

Section SetUpResolution.
Context {pcl : PCL}.

Lemma scale_params_nonzero (res : F32.t) (p : Params) :
  F32.neqb res F32.zero = true ->
  scale_params res p =
  mkParams (F32.mul (model_ss_ p) res) (F32.mul (scene_ss_ p) res)
           (F32.mul (rf_rad_ p) res) (F32.mul (descr_rad_ p) res)
           (F32.mul (cg_size_ p) res) (cg_thresh_ p).
Proof. intros H. unfold scale_params. now rewrite H. Qed.

Lemma scale_params_zero (res : F32.t) (p : Params) :
  F32.eqb res F32.zero = true -> scale_params res p = p.
Proof.
  intros H. unfold scale_params. rewrite neqb_eqb, H. reflexivity.
Qed.

(** C1, as amended.  When the resolution computed from the model cloud is
    nonzero, setUpResolution multiplies each of the five radii (model
    sampling radius, scene sampling radius, local-frame radius, descriptor
    radius, clustering bin size) by it, and leaves the clustering threshold
    at its input value. *)
Theorem setUpResolution_scales_the_radii (g : Globals) :
  F32.neqb (model_resolution g) F32.zero = true ->
  let res := model_resolution g in
  let p := params g in
  let p' := params (setUpResolution g) in
  model_ss_ p' = F32.mul (model_ss_ p) res /\
  scene_ss_ p' = F32.mul (scene_ss_ p) res /\
  rf_rad_ p' = F32.mul (rf_rad_ p) res /\
  descr_rad_ p' = F32.mul (descr_rad_ p) res /\
  cg_size_ p' = F32.mul (cg_size_ p) res /\
  cg_thresh_ p' = cg_thresh_ p.
Proof.
  intros H res p p'. subst p'. unfold setUpResolution. simpl.
  fold res. fold p.
  rewrite (scale_params_nonzero res p H). simpl.
  repeat split.
Qed.

End SetUpResolution.

Lemma two_points_resolution :
  @model_resolution (Demo.pcl []) two_points_loaded = F32.of_Z 2.
Proof. vm_compute. reflexivity. Qed.

(** On a model of two points at distance 2: the sampling radius 10 becomes
    20 and the threshold stays 5. *)
Lemma setUpResolution_scales_the_radii_witness :
  let g := two_points_loaded in
  let p' := params (@setUpResolution (Demo.pcl []) g) in
  F32.neqb (@model_resolution (Demo.pcl []) g) F32.zero = true /\
  model_ss_ p' = F32.of_Z 20 /\ cg_thresh_ p' = F32.of_Z 5.
Proof.
  assert (Hne : F32.neqb (@model_resolution (Demo.pcl []) two_points_loaded)
                         F32.zero = true) by (vm_compute; reflexivity).
  split; [exact Hne|].
  destruct (@setUpResolution_scales_the_radii (Demo.pcl []) two_points_loaded
              Hne) as (H1 & _ & _ & _ & _ & H6).
  split.
  - rewrite H1. vm_compute. reflexivity.
  - rewrite H6. vm_compute. reflexivity.
Defined.

(** C1, as stated, fails: on a model of two points at distance 2 the
    resolution is 2, and the clustering threshold stays 5 instead of
    becoming 10. *)
Lemma clustering_threshold_not_scaled :
  let g := two_points_loaded in
  let res := @model_resolution (Demo.pcl []) g in
  F32.neqb res F32.zero = true /\
  ~ all_six_scaled res (params g) (params (@setUpResolution (Demo.pcl []) g)).
Proof.
  split.
  - vm_compute. reflexivity.
  - intros (_ & _ & _ & _ & _ & H). vm_compute in H. discriminate H.
Qed.

(** ** computeCloudResolution *)

Section CloudResolution.
Context {pcl : PCL}.

Lemma resolution_step_counted cloud res n ip :
  resolution_step cloud (res, n) ip =
  if counted finite_x cloud ip
  then (F64.add res (second_dist cloud ip), n + 1)
  else (res, n).
Proof.
  destruct ip as [i p]. unfold resolution_step, counted, second_dist, finite_x.
  simpl. destruct (isfinite (Pt.x p)); simpl; [|reflexivity].
  destruct (Z.of_nat (length (nearestKSearch_index cloud i 2)) =? 2);
    reflexivity.
Qed.

Lemma resolution_loop cloud (l : list (nat * PointType)) res n :
  fold_left (resolution_step cloud) l (res, n) =
  (fold_left F64.add
             (map (second_dist cloud) (filter (counted finite_x cloud) l)) res,
   n + Z.of_nat (length (map (second_dist cloud)
                             (filter (counted finite_x cloud) l)))).
Proof.
  revert res n. induction l as [|ip l IH]; intros res n.
  - simpl. f_equal. lia.
  - cbn [fold_left filter]. rewrite resolution_step_counted.
    destruct (counted finite_x cloud ip); rewrite IH;
      cbn [map length fold_left];
      f_equal; lia.
Qed.

Lemma computeCloudResolution_mean cloud :
  computeCloudResolution cloud = mean_second_neighbour_distance finite_x cloud.
Proof.
  unfold computeCloudResolution, mean_second_neighbour_distance,
    second_neighbour_distances.
  rewrite resolution_loop.
  destruct (map (second_dist cloud)
                (filter (counted finite_x cloud) (indexed cloud)))
    as [|d ds] eqn:E.
  - reflexivity.
  - unfold mean.
    replace (0 + Z.of_nat (length (d :: ds)) =? 0) with false.
    + simpl negb. cbv iota. rewrite Z.add_0_l. reflexivity.
    + symmetry. apply Z.eqb_neq. simpl length. lia.
Qed.

(** C2, as amended.  computeCloudResolution returns the mean, over all
    points whose x coordinate is finite and whose 2-nearest-neighbour query
    returns exactly 2 results, of the distance to the second nearest
    neighbour; a point whose x coordinate is not finite is skipped and
    contributes nothing; if no point qualifies, the result is 0. *)
Theorem computeCloudResolution_is_the_mean (cloud : Cloud) :
  computeCloudResolution cloud = mean_second_neighbour_distance finite_x cloud /\
  (forall st i p, finite_x p = false -> resolution_step cloud st (i, p) = st) /\
  (second_neighbour_distances finite_x cloud = [] ->
   computeCloudResolution cloud = F64.zero).
Proof.
  split; [apply computeCloudResolution_mean|]. split.
  - intros [res n] i p H. unfold resolution_step.
    unfold finite_x in H. rewrite H. reflexivity.
  - intros H. rewrite computeCloudResolution_mean.
    unfold mean_second_neighbour_distance. rewrite H. reflexivity.
Qed.

End CloudResolution.

(** ** findModelSpaceCorrespondences *)

Lemma static_cast_int_small (n : Z) :
  0 <= n < 2 ^ 31 -> static_cast_int n = n.
Proof.
  intros H. unfold static_cast_int.
  rewrite Z.mod_small; lia.
Qed.

Lemma In_combine_seq {A : Type} (l : list A) (s i : nat) (a : A) :
  In (i, a) (combine (seq s (length l)) l) <->
  (s <= i)%nat /\ nth_error l (i - s) = Some a.
Proof.
  revert s. induction l as [|b l IH]; intros s; simpl.
  - split; [tauto|]. intros [_ H]. destruct (i - s)%nat; discriminate.
  - rewrite IH. split.
    + intros [H|[H1 H2]].
      * inversion H; subst. rewrite Nat.sub_diag. simpl. auto.
      * split; [lia|]. replace (i - s)%nat with (S (i - S s)) by lia.
        exact H2.
    + intros [H1 H2]. destruct (Nat.eq_dec s i) as [->|Hne].
      * rewrite Nat.sub_diag in H2. simpl in H2. left. congruence.
      * right. split; [lia|].
        replace (i - s)%nat with (S (i - S s)) in H2 by lia. exact H2.
Qed.

Lemma In_indexed {A : Type} (l : list A) (i : nat) (a : A) :
  In (i, a) (indexed l) <-> nth_error l i = Some a.
Proof.
  unfold indexed. rewrite In_combine_seq, Nat.sub_0_r.
  split; [tauto|]. intros H; split; [lia|exact H].
Qed.

Section Matching.
Context {pcl : PCL}.

Lemma match_step_app md corrs id :
  match_step md corrs id = corrs ++ match_step md [] id.
Proof.
  destruct id as [i d]. unfold match_step.
  destruct (negb (isfinite (descriptor_at d 0))); [now rewrite app_nil_r|].
  match goal with |- (if ?c then _ else _) = _ => destruct c end;
    [reflexivity|now rewrite app_nil_r].
Qed.

Lemma match_loop md (l : list (nat * DescriptorType)) corrs :
  fold_left (match_step md) l corrs = corrs ++ flat_map (match_step md []) l.
Proof.
  revert corrs. induction l as [|id l IH]; intros corrs; simpl.
  - now rewrite app_nil_r.
  - rewrite IH, (match_step_app md corrs id), <- app_assoc. reflexivity.
Qed.

(** What one turn of the loop appends, and when. *)
Lemma match_step_inv md i d c :
  In c (match_step md [] (i, d)) ->
  isfinite (descriptor_at d 0) = true /\
  exists j dist,
    nearestKSearch md d 1 = [(j, dist)] /\
    c = mkCorr j (static_cast_int (Z.of_nat i)) dist /\
    F32.ltb dist max_sqr_dist = true.
Proof.
  unfold match_step.
  destruct (isfinite (descriptor_at d 0)); simpl negb; cbv iota;
    [|intros []].
  destruct (Z.of_nat (length (nearestKSearch md d 1)) =? 1) eqn:N;
    [|intros []].
  apply Z.eqb_eq in N.
  destruct (nearestKSearch md d 1) as [|[j dist] [|e found]] eqn:E;
    simpl length in N; try lia.
  cbn [nth fst snd andb].
  destruct (F32.ltb dist max_sqr_dist) eqn:L; [|intros []].
  intros [<-|[]]. split; [reflexivity|]. now exists j, dist.
Qed.

Lemma match_step_length md id : (length (match_step md [] id) <= 1)%nat.
Proof.
  destruct id as [i d]. unfold match_step.
  destruct (negb (isfinite (descriptor_at d 0))); simpl; [lia|].
  match goal with |- (length (if ?c then _ else _) <= 1)%nat => destruct c end;
    simpl; lia.
Qed.

Lemma match_descriptors_inv md sd c :
  In c (match_descriptors md sd []) ->
  exists i d j dist,
    nth_error sd i = Some d /\
    isfinite (descriptor_at d 0) = true /\
    nearestKSearch md d 1 = [(j, dist)] /\
    c = mkCorr j (static_cast_int (Z.of_nat i)) dist /\
    F32.ltb dist max_sqr_dist = true.
Proof.
  unfold match_descriptors. rewrite match_loop. simpl.
  rewrite in_flat_map. intros ([i d] & Hin & Hc).
  apply In_indexed in Hin.
  destruct (match_step_inv md i d c Hc) as (Hf & j & dist & H1 & H2 & H3).
  exists i, d, j, dist. auto.
Qed.

(** C3.  The matcher emits a Correspondence for a scene descriptor only when
    the k=1 search over the model descriptors returns one neighbour and the
    squared distance is strictly below 0.25; hence no emitted Correspondence
    has a squared distance of 0.25 or more. *)
Theorem emitted_correspondences_below_threshold
    (md sd : list DescriptorType) (c : Correspondence) :
  In c (match_descriptors md sd []) ->
  (exists i d,
     nth_error sd i = Some d /\
     nearestKSearch md d 1 = [(index_query c, distance c)] /\
     index_match c = static_cast_int (Z.of_nat i)) /\
  F32.ltb (distance c) max_sqr_dist = true /\
  F32.leb max_sqr_dist (distance c) = false.
Proof.
  intros H. apply match_descriptors_inv in H.
  destruct H as (i & d & j & dist & Hd & _ & Hs & -> & Hlt). simpl.
  split; [|split].
  - exists i, d. auto.
  - exact Hlt.
  - apply ltb_not_leb, Hlt.
Qed.

End Matching.

Section MatchingIndices.
Context {pcl : PCL}.

Lemma emitted_index md (l : list DescriptorType) (s : nat) c :
  In c (flat_map (match_step md []) (combine (seq s (length l)) l)) ->
  exists i, (s <= i < s + length l)%nat /\
            index_match c = static_cast_int (Z.of_nat i).
Proof.
  rewrite in_flat_map. intros ([i d] & Hin & Hc).
  apply In_combine_seq in Hin. destruct Hin as [Hs Hn].
  apply match_step_inv in Hc. destruct Hc as (_ & j & dist & _ & -> & _).
  exists i. split; [|reflexivity].
  assert (i - s < length l)%nat by (apply nth_error_Some; congruence). lia.
Qed.

Lemma emitted_indices_NoDup md (l : list DescriptorType) (s : nat) :
  Z.of_nat (s + length l) <= 2 ^ 31 ->
  NoDup (map index_match
             (flat_map (match_step md []) (combine (seq s (length l)) l))).
Proof.
  revert s. induction l as [|d l IH]; intros s Hb;
    cbn [length seq combine flat_map].
  - constructor.
  - rewrite map_app. simpl length in Hb.
    assert (Hrest : NoDup (map index_match
              (flat_map (match_step md []) (combine (seq (S s) (length l)) l))))
      by (apply IH; lia).
    pose proof (match_step_length md (s, d)) as Hlen.
    destruct (match_step md [] (s, d)) as [|c [|c' cs]] eqn:E;
      simpl in Hlen; try lia; cbn [map app]; [exact Hrest|].
    constructor; [|exact Hrest].
    assert (Hc : index_match c = Z.of_nat s).
    { assert (In c (match_step md [] (s, d))) as Hin by (rewrite E; now left).
      apply match_step_inv in Hin.
      destruct Hin as (_ & j & dist & _ & -> & _). simpl.
      apply static_cast_int_small. lia. }
    rewrite in_map_iff. intros (c2 & Heq & Hin2).
    apply emitted_index in Hin2. destruct Hin2 as (i & Hi & Hc2).
    rewrite static_cast_int_small in Hc2 by lia. lia.
Qed.

Lemma emitted_length md (l : list (nat * DescriptorType)) :
  (length (flat_map (match_step md []) l) <= length l)%nat.
Proof.
  induction l as [|id l IH]; cbn [flat_map length]; [lia|].
  rewrite length_app. pose proof (match_step_length md id). lia.
Qed.

Lemma length_indexed {A : Type} (l : list A) : length (indexed l) = length l.
Proof.
  unfold indexed. rewrite length_combine, length_seq. lia.
Qed.

(** C4, as amended.  A scene descriptor whose first entry is not finite is
    excluded from matching: no Correspondence is emitted for its scene
    keypoint (the scene holding at most 2^31 descriptors, so that every index
    is an [int]). *)
Theorem non_finite_first_entry_never_matched
    (md sd : list DescriptorType) (i : nat) (d : DescriptorType) :
  Z.of_nat (length sd) <= 2 ^ 31 ->
  nth_error sd i = Some d ->
  isfinite (descriptor_at d 0) = false ->
  forall c, In c (match_descriptors md sd []) -> index_match c <> Z.of_nat i.
Proof.
  intros Hb Hd Hnf c Hin Heq.
  apply match_descriptors_inv in Hin.
  destruct Hin as (i' & d' & j & dist & Hd' & Hf & _ & -> & _).
  simpl in Heq.
  assert (i' < length sd)%nat by (apply nth_error_Some; congruence).
  rewrite static_cast_int_small in Heq by lia.
  apply Nat2Z.inj in Heq. subst i'. congruence.
Qed.

Lemma many_to_one_example : many_to_one_possible.
Proof.
  exists (Demo.pcl []), [Demo.shot []], [Demo.shot []; Demo.shot []],
         (mkCorr 0 0 F32.zero), (mkCorr 0 1 F32.zero).
  assert (E : @match_descriptors (Demo.pcl []) [Demo.shot []]
                [Demo.shot []; Demo.shot []] [] =
              [mkCorr 0 0 F32.zero; mkCorr 0 1 F32.zero])
    by (vm_compute; reflexivity).
  rewrite E. simpl. repeat split; auto. discriminate.
Qed.

(** C5.  In the emitted list each scene keypoint index appears at most once
    (the scene holding at most 2^31 descriptors, so that every index is an
    [int]), the number of Correspondences is at most the number of scene
    descriptors, and the same model keypoint index may appear in several
    Correspondences. *)
Theorem scene_indices_unique (md sd : list DescriptorType) :
  Z.of_nat (length sd) <= 2 ^ 31 ->
  NoDup (map index_match (match_descriptors md sd [])) /\
  (length (match_descriptors md sd []) <= length sd)%nat /\
  many_to_one_possible.
Proof.
  intros Hb. unfold match_descriptors. rewrite match_loop. cbn [app].
  split; [|split].
  - apply (emitted_indices_NoDup md sd 0). exact Hb.
  - pose proof (emitted_length md (indexed sd)) as H.
    rewrite length_indexed in H. exact H.
  - exact many_to_one_example.
Qed.

End MatchingIndices.

(** ** main *)

Lemma reads_only_ret {A : Type} (a : A) : reads_only (ret a).
Proof. intros w. left. now exists a. Qed.

Lemma reads_only_bind {A B : Type} (m : M A) (k : A -> M B) :
  reads_only m -> (forall a, reads_only (k a)) -> reads_only (bind m k).
Proof.
  intros Hm Hk w. unfold bind.
  destruct (Hm w) as [[a ->]| ->]; [apply Hk|now right].
Qed.

Lemma reads_only_index {A : Type} (v : list A) (i : nat) :
  reads_only (index v i).
Proof.
  intros w. unfold index. destruct (nth_error v i) as [a|].
  - left. now exists a.
  - now right.
Qed.

Lemma reads_only_for_each {A : Type} (body : A -> M unit) (l : list A) :
  (forall a, reads_only (body a)) -> reads_only (for_each body l).
Proof.
  intros Hb. induction l as [|a l IH]; simpl.
  - apply reads_only_ret.
  - apply reads_only_bind; [apply Hb|intros _; exact IH].
Qed.

Create HintDb reads.
Lemma reads_only_at_int {A : Type} (v : list A) (i : Z) :
  reads_only (at_int v i).
Proof.
  unfold at_int. destruct (i <? 0); [now right|apply reads_only_index].
Qed.

#[local] Hint Resolve reads_only_ret reads_only_index reads_only_at_int : reads.

Section Main.
Context {pcl : PCL}.

Lemma reads_only_get : reads_only get.
Proof. intros w. left. now exists (globals w). Qed.

Lemma reads_only_outputResults : reads_only outputResults.
Proof.
  unfold outputResults. apply reads_only_bind; [apply reads_only_get|].
  intros g. apply reads_only_for_each. intros i.
  repeat (apply reads_only_bind; [auto with reads|intros ?]).
  auto with reads.
Qed.

Lemma reads_only_visualization : reads_only visualization.
Proof.
  unfold visualization. apply reads_only_bind; [apply reads_only_get|].
  intros g. apply reads_only_for_each. intros i.
  apply reads_only_bind; [auto with reads|intros _].
  destruct (show_correspondences_ (opts g)); [|auto with reads].
  apply reads_only_bind; [auto with reads|intros corrs_i].
  apply reads_only_for_each. intros j.
  repeat (apply reads_only_bind; [auto with reads|intros ?]).
  auto with reads.
Qed.

Lemma params_after_stages g :
  params (after_stages g) = params (setUpResolution g).
Proof.
  unfold after_stages, clusteringUsingHough3D.
  match goal with |- context [recognize ?a ?b ?c ?d ?e ?f ?h] =>
    destruct (recognize a b c d e f h) end.
  reflexivity.
Qed.

Lemma pipeline_outcome (w : World) :
  let w1 := mkWorld (after_stages (globals w)) (printed w ++ stage_lines) in
  let w2 := mkWorld (after_stages (globals w))
                    (printed w ++ stage_lines ++ ["output results:"]) in
  pipeline w = Fault w1 \/ pipeline w = Fault w2 \/ pipeline w = Done 0 w2.
Proof.
  intros w1 w2.
  assert (E : pipeline w =
              bind outputResults
                   (fun _ => say "output results:" ;; visualization ;; ret 0) w1).
  { unfold pipeline, bind at 1 2 3 4 5 6 7 8 9 10 11 12 13 14, say, modify.
    cbn [globals printed]. unfold w1, stage_lines, after_stages.
    repeat rewrite <- app_assoc. reflexivity. }
  assert (E2 : (say "output results:" ;; visualization ;; ret 0) w1 =
               bind visualization (fun _ => ret 0) w2).
  { unfold bind at 1, say. cbn [globals printed]. unfold w1, w2.
    cbn [globals printed]. now rewrite <- app_assoc. }
  destruct (reads_only_outputResults w1) as [[[] H]|H].
  2: { left. rewrite E. unfold bind. now rewrite H. }
  right.
  assert (E3 : pipeline w = bind visualization (fun _ => ret 0) w2).
  { rewrite E. unfold bind at 1. rewrite H. exact E2. }
  rewrite E3. unfold bind.
  destruct (reads_only_visualization w2) as [[[] H2]|H2]; rewrite H2;
    [now right|now left].
Qed.

Lemma pipeline_ran_every_stage (w : World) :
  ran_every_stage (printed w) (pipeline w) /\
  params (globals (final_world (pipeline w))) =
  params (setUpResolution (globals w)).
Proof.
  destruct (pipeline_outcome w) as [E|[E|E]]; rewrite E; simpl;
    rewrite params_after_stages; (split; [split|reflexivity]);
    try discriminate.
  - exists []. reflexivity.
  - exists ["output results:"]. reflexivity.
  - exists ["output results:"]. reflexivity.
Qed.

(** C6.  When the resolution computed from the model cloud is zero,
    setUpResolution leaves every parameter at its input value, and the
    program goes on through every later stage, with these values, without
    leaving. *)
Theorem zero_resolution_keeps_parameters (w : World) :
  F32.eqb (model_resolution (globals w)) F32.zero = true ->
  params (setUpResolution (globals w)) = params (globals w) /\
  ran_every_stage (printed w) (pipeline w) /\
  params (globals (final_world (pipeline w))) = params (globals w).
Proof.
  intros H.
  assert (E : params (setUpResolution (globals w)) = params (globals w))
    by (unfold setUpResolution; simpl; now apply scale_params_zero).
  destruct (pipeline_ran_every_stage w) as [Hr Hp].
  split; [exact E|]. split; [exact Hr|]. now rewrite Hp.
Qed.

End Main.

Section Entry.
Context {pcl : PCL}.

Lemma main_help argv :
  find_switch argv "-h" = true -> run argv = Exit 0 begun.
Proof.
  intros H. unfold run, main, bind, say, parseCommandLine. rewrite H.
  reflexivity.
Qed.

Lemma main_filenames_missing argv :
  find_switch argv "-h" = false ->
  length (parse_file_extension_argument argv ".pcd") <> 2%nat ->
  run argv = Exit (-1) begun.
Proof.
  intros H Hn. unfold run, main, bind, say, parseCommandLine. rewrite H.
  apply Nat.eqb_neq in Hn. rewrite Hn. reflexivity.
Qed.

Lemma main_parsed argv :
  find_switch argv "-h" = false ->
  length (parse_file_extension_argument argv ".pcd") = 2%nat ->
  run argv =
  bind loadClouds (fun ok => if negb ok then ret (-1) else pipeline)
       (mkWorld (parsed argv) ["Recognition begin"]).
Proof.
  intros H Hn. unfold run, main.
  unfold bind at 1 2, say, parseCommandLine. rewrite H.
  apply Nat.eqb_eq in Hn. rewrite Hn. reflexivity.
Qed.

Lemma main_load_failure argv :
  find_switch argv "-h" = false ->
  length (parse_file_extension_argument argv ".pcd") = 2%nat ->
  loadPCDFile (model_filename_ (opts (parsed argv))) = None \/
  loadPCDFile (scene_filename_ (opts (parsed argv))) = None ->
  exists w, run argv = Done (-1) w /\ printed w = ["Recognition begin"].
Proof.
  intros H Hn Hl. rewrite (main_parsed argv H Hn).
  unfold bind at 1, loadClouds, bind at 1, get. cbn [globals].
  destruct (loadPCDFile (model_filename_ (opts (parsed argv)))) as [m|] eqn:Em.
  - destruct Hl as [Hl|Hl]; [discriminate|].
    unfold bind at 1, modify. cbn [globals printed]. rewrite Hl.
    eexists. split; reflexivity.
  - eexists. split; reflexivity.
Qed.

Lemma main_loaded argv m s :
  find_switch argv "-h" = false ->
  length (parse_file_extension_argument argv ".pcd") = 2%nat ->
  loadPCDFile (model_filename_ (opts (parsed argv))) = Some m ->
  loadPCDFile (scene_filename_ (opts (parsed argv))) = Some s ->
  run argv =
  pipeline
    (mkWorld (set_clouds (mkClouds m [] s [] [] [] [] [] []) (parsed argv))
             ["Recognition begin"]).
Proof.
  intros H Hn Hm Hs. rewrite (main_parsed argv H Hn).
  unfold bind at 1, loadClouds, bind at 1, get. cbn [globals].
  rewrite Hm. unfold bind at 1, modify. cbn [globals printed]. rewrite Hs.
  reflexivity.
Qed.

(** C7, as amended.  The program never examines the radius parameters.  It
    stops before the pipeline only when -h is given (exit 0), when the
    command line does not name exactly two .pcd files (exit -1), or when a
    cloud fails to load (return -1); in every other case, whatever the
    values of the parameters, it goes through every stage without leaving. *)
Theorem only_command_line_and_loading_stop_the_run (argv : list string) :
  let filenames := parse_file_extension_argument argv ".pcd" in
  let model_file := argv_at argv (nth 0 filenames 0) in
  let scene_file := argv_at argv (nth 1 filenames 0) in
  (find_switch argv "-h" = true -> run argv = Exit 0 begun) /\
  (find_switch argv "-h" = false -> length filenames <> 2%nat ->
   run argv = Exit (-1) begun) /\
  (find_switch argv "-h" = false -> length filenames = 2%nat ->
   loadPCDFile model_file = None \/ loadPCDFile scene_file = None ->
   exists w, run argv = Done (-1) w /\ printed w = ["Recognition begin"]) /\
  (find_switch argv "-h" = false -> length filenames = 2%nat ->
   loadPCDFile model_file <> None -> loadPCDFile scene_file <> None ->
   ran_every_stage ["Recognition begin"] (run argv)).
Proof.
  intros filenames model_file scene_file.
  split; [apply main_help|]. split; [apply main_filenames_missing|].
  split; [apply main_load_failure|].
  intros H Hn Hm Hs.
  destruct (loadPCDFile model_file) as [m|] eqn:Em; [|congruence].
  destruct (loadPCDFile scene_file) as [s|] eqn:Es; [|congruence].
  rewrite (main_loaded argv m s H Hn Em Es).
  apply (pipeline_ran_every_stage
           (mkWorld (set_clouds (mkClouds m [] s [] [] [] [] [] []) (parsed argv))
                    ["Recognition begin"])).
Qed.

End Entry.

(** ** The clusterer of the specification *)

Section HoughLengths.
Variable fit : Correspondences -> option Matrix4f.

Lemma emit_keeps_lengths out e :
  length (fst out) = length (snd out) ->
  length (fst (Hough.emit fit out e)) = length (snd (Hough.emit fit out e)).
Proof.
  intros H. unfold Hough.emit. destruct (fit (snd (snd e))); [|exact H].
  simpl. rewrite !length_app, H. reflexivity.
Qed.

Lemma emit_all_keeps_lengths (h : Hough.Space) out :
  length (fst out) = length (snd out) ->
  length (fst (fold_left (Hough.emit fit) h out)) =
  length (snd (fold_left (Hough.emit fit) h out)).
Proof.
  revert out. induction h as [|e h IH]; intros out H; simpl; [exact H|].
  apply IH, emit_keeps_lengths, H.
Qed.
End HoughLengths.

Lemma recognize_lengths cast_votes fit_transform bin_size thresh mk mrf sk srf cs :
  length (fst (Hough.recognize cast_votes fit_transform
                               bin_size thresh mk mrf sk srf cs)) =
  length (snd (Hough.recognize cast_votes fit_transform
                               bin_size thresh mk mrf sk srf cs)).
Proof. unfold Hough.recognize. now apply emit_all_keeps_lengths. Qed.

Lemma for_each_in_bounds {A : Type} (body : A -> M unit) (l : list A) (w : World) :
  (forall a, In a l -> body a w = Done tt w) -> for_each body l w = Done tt w.
Proof.
  induction l as [|a l IH]; intros H; simpl; [reflexivity|].
  unfold bind. rewrite (H a) by now left. apply IH.
  intros b Hb. apply H. now right.
Qed.

Section Clustering.
Context {pcl : PCL}.

Lemma outputResults_in_bounds (w : World) :
  length (rototranslations (results (globals w))) =
  length (clustered_corrs (results (globals w))) ->
  outputResults w = Done tt w.
Proof.
  intros H. unfold outputResults, bind at 1, get.
  apply for_each_in_bounds. intros i Hi. apply in_seq in Hi.
  unfold bind, index.
  destruct (nth_error (clustered_corrs (results (globals w))) i) eqn:E1.
  - destruct (nth_error (rototranslations (results (globals w))) i) eqn:E2;
      [reflexivity|].
    apply nth_error_None in E2. lia.
  - apply nth_error_None in E1. lia.
Qed.

(** C10.  With the clusterer of the specification, the vector of transforms
    and the vector of clustered correspondence sets have the same length
    after clusteringUsingHough3D, so that [clustered_corrs[i]] is in bounds
    for every [i] below the number of instances, and the loop of
    outputResults runs without an access out of range. *)
Theorem clustered_corrs_as_long_as_rototranslations
    cast_votes fit_transform (g : Globals) :
  @recognize pcl = Hough.recognize cast_votes fit_transform ->
  let r := results (clusteringUsingHough3D g) in
  length (rototranslations r) = length (clustered_corrs r) /\
  (forall i, (i < length (rototranslations r))%nat ->
             exists cs, nth_error (clustered_corrs r) i = Some cs) /\
  (forall lines,
     outputResults (mkWorld (clusteringUsingHough3D g) lines) =
     Done tt (mkWorld (clusteringUsingHough3D g) lines)).
Proof.
  intros Hrec r.
  assert (L : length (rototranslations r) = length (clustered_corrs r)).
  { subst r. unfold clusteringUsingHough3D. rewrite Hrec.
    match goal with |- context [Hough.recognize ?cv ?ft ?a ?b ?c ?d ?e ?f ?h] =>
      pose proof (recognize_lengths cv ft a b c d e f h) as H;
      destruct (Hough.recognize cv ft a b c d e f h) end.
    exact H. }
  split; [exact L|]. split.
  - intros i Hi.
    destruct (nth_error (clustered_corrs r) i) as [cs|] eqn:E;
      [now exists cs|].
    apply nth_error_None in E. lia.
  - intros lines. apply outputResults_in_bounds. exact L.
Qed.

End Clustering.

(** ** The sampler of the specification *)

(** *** Distances in binary32 *)

Lemma sub_self (a : F32.t) : isfinite a = true -> F32.sub a a = F32.zero.
Proof.
  destruct a as [s|s| |s m e]; simpl; try discriminate; intros _.
  - destruct s; reflexivity.
  - unfold F32.sub, SFsub. rewrite Z.sub_diag. reflexivity.
Qed.

Lemma dist_self (p : PointType) :
  finite_coordinates p = true -> Sampler.dist p p = F32.zero.
Proof.
  unfold finite_coordinates. intros H.
  apply andb_prop in H. destruct H as [H Hz].
  apply andb_prop in H. destruct H as [Hx Hy].
  unfold Sampler.dist, Sampler.sqr_dist.
  rewrite !sub_self by assumption. reflexivity.
Qed.

Lemma abs_binary_round_aux (p e : Z) (s : bool) (m : Z) (ex : Z) (l : location) :
  SFabs (binary_round_aux p e s m ex l) =
  SFabs (binary_round_aux p e (negb s) m ex l).
Proof.
  unfold binary_round_aux.
  destruct (shr_fexp p e m ex l) as [mrs' e'].
  destruct (shr_fexp p e _ e' loc_Exact) as [mrs'' e''].
  destruct (shr_m mrs''); try reflexivity.
  destruct (e'' <=? e - p); reflexivity.
Qed.

Lemma abs_binary_normalize_opp (p e : Z) (m ex : Z) :
  SFabs (binary_normalize p e (- m) ex false) =
  SFabs (binary_normalize p e m ex false).
Proof.
  destruct m as [|m|m]; simpl; try reflexivity; unfold binary_round;
    destruct (shl_align m ex _) as [mz ez].
  - apply (abs_binary_round_aux p e true (Z.pos mz) ez loc_Exact).
  - apply (abs_binary_round_aux p e false (Z.pos mz) ez loc_Exact).
Qed.

Lemma abs_sub_sym (a b : F32.t) :
  SFabs (F32.sub a b) = SFabs (F32.sub b a).
Proof.
  unfold F32.sub.
  destruct a as [sa|sa| |sa ma ea], b as [sb|sb| |sb mb eb]; simpl;
    try reflexivity;
    try (destruct sa, sb; reflexivity).
  rewrite (Z.min_comm eb ea).
  rewrite <- abs_binary_normalize_opp. f_equal. f_equal. lia.
Qed.

Lemma sqr_abs (a : F32.t) : Sampler.sqr a = Sampler.sqr (SFabs a).
Proof.
  unfold Sampler.sqr, F32.mul.
  destruct a as [s|s| |s m e]; simpl; try reflexivity;
    destruct s; reflexivity.
Qed.

Lemma sqr_sub_sym (a b : F32.t) :
  Sampler.sqr (F32.sub a b) = Sampler.sqr (F32.sub b a).
Proof.
  rewrite (sqr_abs (F32.sub a b)), (sqr_abs (F32.sub b a)), abs_sub_sym.
  reflexivity.
Qed.

Lemma dist_sym (p q : PointType) : Sampler.dist p q = Sampler.dist q p.
Proof.
  unfold Sampler.dist, Sampler.sqr_dist.
  now rewrite (sqr_sub_sym (Pt.x p)), (sqr_sub_sym (Pt.y p)),
              (sqr_sub_sym (Pt.z p)).
Qed.

Lemma within_sym (r : F32.t) (p q : PointType) :
  Sampler.within r p q = Sampler.within r q p.
Proof. unfold Sampler.within. now rewrite dist_sym. Qed.

Lemma within_self (r : F32.t) (p : PointType) :
  F32.leb F32.zero r = true -> finite_coordinates p = true ->
  Sampler.within r p p = true.
Proof.
  intros Hr Hp. unfold Sampler.within. now rewrite dist_self.
Qed.

(** *** The greedy loop *)

Lemma leb_false_ltb_false (a b : F32.t) :
  F32.leb a b = false -> F32.ltb a b = false.
Proof.
  unfold F32.leb, F32.ltb, SFleb, SFltb.
  destruct (SFcompare a b) as [[]|]; congruence.
Qed.

Section Decimation.
Variable r : F32.t.

Local Abbreviation covered := (Sampler.covered r).
Local Abbreviation apart := (Sampler.apart r).
Local Abbreviation flags_ok := (Sampler.flags_ok r).

Lemma nth_mark (cloud : Cloud) p (visited : list bool) j q :
  length visited = length cloud ->
  nth_error cloud j = Some q ->
  nth j (Sampler.mark r cloud p visited) true =
  nth j visited true || Sampler.within r p q.
Proof.
  unfold Sampler.mark. revert visited j.
  induction cloud as [|c cloud IH]; intros [|v visited] [|j] L H;
    simpl in *; try discriminate.
  - now inversion H.
  - apply IH; [lia|exact H].
Qed.

Lemma length_mark (cloud : Cloud) p (visited : list bool) :
  length visited = length cloud ->
  length (Sampler.mark r cloud p visited) = length cloud.
Proof.
  intros L. unfold Sampler.mark. rewrite length_map, length_combine. lia.
Qed.

Lemma covered_app ks p q :
  covered (ks ++ [p]) q = covered ks q || Sampler.within r p q.
Proof.
  unfold Sampler.covered. rewrite existsb_app. simpl. now rewrite orb_false_r.
Qed.

Lemma flags_ok_mark cloud visited ks p :
  length visited = length cloud ->
  flags_ok cloud visited ks ->
  flags_ok cloud (Sampler.mark r cloud p visited) (ks ++ [p]).
Proof.
  intros L H j q Hq.
  rewrite (nth_mark cloud p visited j q L Hq), (H j q Hq), covered_app.
  now rewrite orb_assoc.
Qed.

Lemma apart_app ks p :
  apart ks -> covered ks p = false -> apart (ks ++ [p]).
Proof.
  intros Ha Hc i j a b Hij Hi Hj.
  assert (Lj : (j < length (ks ++ [p]))%nat)
    by (apply nth_error_Some; congruence).
  rewrite length_app in Lj. simpl in Lj.
  rewrite nth_error_app1 in Hi by lia.
  destruct (Nat.eq_dec j (length ks)) as [->|Hne].
  - rewrite nth_error_app2, Nat.sub_diag in Hj by lia.
    simpl in Hj. inversion Hj; subst b.
    unfold Sampler.covered in Hc.
    destruct (Sampler.within r a p) eqn:W; [|reflexivity].
    assert (existsb (fun k => Sampler.within r k p) ks = true); [|congruence].
    apply existsb_exists. exists a. split; [|exact W].
    eapply nth_error_In, Hi.
  - rewrite nth_error_app1 in Hj by lia. exact (Ha i j a b Hij Hi Hj).
Qed.

Lemma covered_more ks more q :
  covered ks q = true -> covered (ks ++ more) q = true.
Proof.
  unfold Sampler.covered. rewrite existsb_app. intros ->. reflexivity.
Qed.

Lemma decimate_loop_spec (cloud : Cloud) (todo : list (nat * PointType))
    (visited : list bool) (ks : Cloud) :
  length visited = length cloud ->
  flags_ok cloud visited ks ->
  apart ks ->
  (forall i p, In (i, p) todo -> nth_error cloud i = Some p) ->
  let out := Sampler.decimate_loop r cloud todo visited ks in
  apart out /\
  (exists more, out = ks ++ more) /\
  (F32.leb F32.zero r = true ->
   forall i p, In (i, p) todo -> finite_coordinates p = true ->
               covered out p = true).
Proof.
  revert visited ks.
  induction todo as [|[i p] todo IH]; intros visited ks L Hf Ha Ht; simpl.
  - split; [exact Ha|]. split; [exists []; now rewrite app_nil_r|].
    intros _ ? ? [].
  - assert (Hp : nth_error cloud i = Some p) by (apply Ht; now left).
    assert (Ht' : forall j q, In (j, q) todo -> nth_error cloud j = Some q)
      by (intros; apply Ht; now right).
    pose proof (Hf i p Hp) as Hv.
    destruct (nth i visited true) eqn:V.
    + destruct (IH visited ks L Hf Ha Ht') as (A & [more E] & C).
      split; [exact A|]. split; [now exists more|].
      intros Hr j q [Hin|Hin] Hq; [|now apply (C Hr j q)].
      inversion Hin; subst j q. rewrite Hq in Hv. simpl in Hv.
      rewrite E. now apply covered_more.
    + symmetry in Hv. apply orb_false_elim in Hv. destruct Hv as [Hfin Hc].
      apply negb_false_iff in Hfin.
      destruct (IH (Sampler.mark r cloud p visited) (ks ++ [p])
                   (length_mark cloud p visited L)
                   (flags_ok_mark cloud visited ks p L Hf)
                   (apart_app ks p Ha Hc) Ht') as (A & [more E] & C).
      split; [exact A|]. split; [exists ([p] ++ more); now rewrite app_assoc|].
      intros Hr j q [Hin|Hin] Hq; [|now apply (C Hr j q)].
      inversion Hin; subst j q. rewrite E. apply covered_more.
      rewrite covered_app, (within_self r p Hr Hq). apply orb_true_r.
Qed.

End Decimation.

Lemma flags_ok_initially (r : F32.t) (cloud : Cloud) :
  Sampler.flags_ok r cloud (map (fun p => negb (finite_coordinates p)) cloud) [].
Proof.
  intros j q Hq. simpl. rewrite orb_false_r.
  apply nth_error_nth.
  now rewrite nth_error_map, Hq.
Qed.

Lemma apart_nil (r : F32.t) : Sampler.apart r [].
Proof. intros i j a b _ Hi. destruct i; discriminate. Qed.

(** C9.  For the sampler of the specification, on every cloud and every
    radius that is not negative: no output keypoint is within the radius of
    another one (their distance is not below the radius), and every input
    point with finite coordinates has an output keypoint within the radius. *)
Theorem decimate_spacing_and_coverage (cloud : Cloud) (r : F32.t) :
  F32.leb F32.zero r = true ->
  let ks := Sampler.decimate cloud r in
  (forall i j a b, i <> j ->
     nth_error ks i = Some a -> nth_error ks j = Some b ->
     Sampler.within r a b = false /\ F32.ltb (Sampler.dist a b) r = false) /\
  (forall p, In p cloud -> finite_coordinates p = true ->
     exists k, In k ks /\ Sampler.within r k p = true).
Proof.
  intros Hr ks.
  destruct (decimate_loop_spec r cloud (indexed cloud)
              (map (fun p => negb (finite_coordinates p)) cloud) []
              (length_map _ cloud) (flags_ok_initially r cloud) (apart_nil r)
              (fun i p H => proj1 (In_indexed cloud i p) H))
    as (A & _ & C).
  fold (Sampler.decimate cloud r) in A, C. fold ks in A, C.
  split.
  - intros i j a b Hij Hi Hj.
    assert (W : Sampler.within r a b = false).
    { destruct (Nat.lt_ge_cases i j) as [Hlt|Hge].
      - exact (A i j a b Hlt Hi Hj).
      - rewrite within_sym. apply (A j i b a); [lia|exact Hj|exact Hi]. }
    split; [exact W|]. apply leb_false_ltb_false. exact W.
  - intros p Hp Hfin.
    destruct (In_nth_error cloud p Hp) as [i Hi].
    apply In_indexed in Hi.
    specialize (C Hr i p Hi Hfin).
    unfold Sampler.covered in C. apply existsb_exists in C.
    destruct C as (k & Hk & Hw). now exists k.
Qed.

(** ** The theorems at concrete inputs *)

(** C2, as stated, fails: the first point of the cloud has a NaN y
    coordinate and a finite x, it is not skipped, and the result is NaN,
    where the mean over the points with finite coordinates is 2. *)
Lemma non_finite_y_is_not_skipped :
  finite_coordinates (Pt.mk F32.zero F32.nan F32.zero 0) = false /\
  @computeCloudResolution (Demo.pcl []) cloud_with_nan_y = S754_nan /\
  @mean_second_neighbour_distance (Demo.pcl []) finite_coordinates
     cloud_with_nan_y = F64.of_Z 2 /\
  @computeCloudResolution (Demo.pcl []) cloud_with_nan_y <>
  @mean_second_neighbour_distance (Demo.pcl []) finite_coordinates
     cloud_with_nan_y.
Proof.
  assert (E1 : @computeCloudResolution (Demo.pcl []) cloud_with_nan_y = S754_nan)
    by (vm_compute; reflexivity).
  assert (E2 : @mean_second_neighbour_distance (Demo.pcl []) finite_coordinates
                 cloud_with_nan_y = F64.of_Z 2)
    by (vm_compute; reflexivity).
  repeat split; try assumption.
  rewrite E1, E2. vm_compute. discriminate.
Qed.

(** One model descriptor, and the same descriptor in the scene: they match
    at distance 0. *)
Lemma emitted_correspondences_below_threshold_witness :
  In (mkCorr 0 0 F32.zero)
     (@match_descriptors (Demo.pcl []) [Demo.shot []] [Demo.shot []] []) /\
  F32.leb max_sqr_dist F32.zero = false.
Proof.
  assert (Hin : In (mkCorr 0 0 F32.zero)
                   (@match_descriptors (Demo.pcl []) [Demo.shot []]
                                       [Demo.shot []] []))
    by (vm_compute; left; reflexivity).
  split; [exact Hin|].
  exact (proj2 (proj2 (@emitted_correspondences_below_threshold (Demo.pcl [])
                         [Demo.shot []] [Demo.shot []] _ Hin))).
Defined.

(** A scene of two descriptors, the first of which starts with NaN. *)
Lemma non_finite_first_entry_never_matched_witness :
  let sd := [descriptor_with_first_nan; Demo.shot []] in
  Z.of_nat (length sd) <= 2 ^ 31 /\
  nth_error sd 0 = Some descriptor_with_first_nan /\
  isfinite (descriptor_at descriptor_with_first_nan 0) = false /\
  forall c, In c (@match_descriptors (Demo.pcl []) [Demo.shot []] sd []) ->
            index_match c <> 0.
Proof.
  intros sd.
  assert (H1 : Z.of_nat (length sd) <= 2 ^ 31) by (vm_compute; discriminate).
  assert (H2 : nth_error sd 0 = Some descriptor_with_first_nan) by reflexivity.
  assert (H3 : isfinite (descriptor_at descriptor_with_first_nan 0) = false)
    by reflexivity.
  repeat split; try assumption.
  exact (@non_finite_first_entry_never_matched (Demo.pcl []) [Demo.shot []] sd
           0%nat descriptor_with_first_nan H1 H2 H3).
Defined.

(** C4, as stated, fails: the descriptor has a NaN second entry and a finite
    first entry; the guard of line 231 lets it through to the search, and
    with a search that answers with index 0 at distance 0 a Correspondence
    is emitted for it. *)
Lemma later_non_finite_entry_is_matched :
  SHOT352_ok descriptor_with_later_nan /\
  has_non_finite_entry descriptor_with_later_nan /\
  isfinite (descriptor_at descriptor_with_later_nan 0) = true /\
  In (mkCorr 0 0 F32.zero)
     (@match_descriptors (Demo.pcl_kept []) [Demo.shot []]
                         [descriptor_with_later_nan] []).
Proof.
  split; [split; reflexivity|]. split; [|split].
  - exists 1%nat. split; [lia|reflexivity].
  - reflexivity.
  - vm_compute. left. reflexivity.
Qed.

(** A scene of two equal descriptors. *)
Lemma scene_indices_unique_witness :
  let sd := [Demo.shot []; Demo.shot []] in
  Z.of_nat (length sd) <= 2 ^ 31 /\
  NoDup (map index_match
             (@match_descriptors (Demo.pcl []) [Demo.shot []] sd [])).
Proof.
  intros sd.
  assert (H1 : Z.of_nat (length sd) <= 2 ^ 31) by (vm_compute; discriminate).
  split; [exact H1|].
  exact (proj1 (@scene_indices_unique (Demo.pcl []) [Demo.shot []] sd H1)).
Defined.

(** A model of one point: the resolution is 0. *)
Lemma zero_resolution_keeps_parameters_witness :
  let w := mkWorld one_point_loaded [] in
  F32.eqb (@model_resolution (Demo.pcl []) (globals w)) F32.zero = true /\
  params (@setUpResolution (Demo.pcl []) (globals w)) = default_params /\
  ran_every_stage [] (@pipeline (Demo.pcl []) w).
Proof.
  intros w.
  assert (H : F32.eqb (@model_resolution (Demo.pcl []) (globals w)) F32.zero
              = true) by (vm_compute; reflexivity).
  split; [exact H|].
  destruct (@zero_resolution_keeps_parameters (Demo.pcl []) w H)
    as (E & R & _).
  split; [exact E|exact R].
Defined.

(** C7, as stated, fails: with --model_ss -1 the model sampling radius is
    negative, and the program still goes through every stage and returns 0. *)
Lemma negative_radius_runs_every_stage :
  some_radius_not_positive
    (params (@parsed (Demo.pcl two_files) negative_radius_argv)) = true /\
  (exists w, @run (Demo.pcl two_files) negative_radius_argv = Done 0 w /\
             printed w = "Recognition begin" :: stage_lines
                         ++ ["output results:"]) /\
  ~ stopped_before_stages (@run (Demo.pcl two_files) negative_radius_argv).
Proof.
  assert (E : exists w,
             @run (Demo.pcl two_files) negative_radius_argv = Done 0 w /\
             printed w = "Recognition begin" :: stage_lines
                         ++ ["output results:"])
    by (eexists; split; vm_compute; reflexivity).
  split; [vm_compute; reflexivity|]. split; [exact E|].
  destruct E as (w & -> & Hw). unfold stopped_before_stages. simpl.
  rewrite Hw. discriminate.
Qed.

(** The run with --model_ss -1 on two clouds that load. *)
Lemma only_command_line_and_loading_stop_the_run_witness :
  @find_switch (Demo.pcl two_files) negative_radius_argv "-h" = false /\
  ran_every_stage ["Recognition begin"]
                  (@run (Demo.pcl two_files) negative_radius_argv).
Proof.
  split; [reflexivity|].
  refine (proj2 (proj2 (proj2
            (@only_command_line_and_loading_stop_the_run (Demo.pcl two_files)
               negative_radius_argv))) _ _ _ _).
  - reflexivity.
  - reflexivity.
  - vm_compute. discriminate.
  - vm_compute. discriminate.
Defined.

(** Five points on a line at 0, 1, 2, 3 and 5, radius 2: the keypoints are
    the points at 0 and 3. *)
Lemma decimate_spacing_and_coverage_witness :
  F32.leb F32.zero (F32.of_Z 2) = true /\
  Sampler.decimate five_points (F32.of_Z 2) = [Demo.pt 0 0 0; Demo.pt 3 0 0] /\
  Sampler.within (F32.of_Z 2) (Demo.pt 0 0 0) (Demo.pt 3 0 0) = false /\
  exists k, In k (Sampler.decimate five_points (F32.of_Z 2)) /\
            Sampler.within (F32.of_Z 2) k (Demo.pt 5 0 0) = true.
Proof.
  assert (Hr : F32.leb F32.zero (F32.of_Z 2) = true) by reflexivity.
  assert (E : Sampler.decimate five_points (F32.of_Z 2) =
              [Demo.pt 0 0 0; Demo.pt 3 0 0]) by (vm_compute; reflexivity).
  destruct (decimate_spacing_and_coverage five_points (F32.of_Z 2) Hr)
    as [A C].
  split; [exact Hr|]. split; [exact E|]. split.
  - refine (proj1 (A 0%nat 1%nat _ _ _ _ _)).
    + discriminate.
    + rewrite E. reflexivity.
    + rewrite E. reflexivity.
  - apply C.
    + simpl. tauto.
    + reflexivity.
Defined.

(** Six correspondences that vote for one bin: one instance. *)
Lemma clustered_corrs_as_long_as_rototranslations_witness :
  let r := results (@clusteringUsingHough3D (Demo.pcl []) six_votes_loaded) in
  @recognize (Demo.pcl []) = Hough.recognize Demo.index_votes Demo.fit_identity /\
  length (rototranslations r) = 1%nat /\
  length (rototranslations r) = length (clustered_corrs r).
Proof.
  intros r.
  assert (H : @recognize (Demo.pcl []) =
              Hough.recognize Demo.index_votes Demo.fit_identity)
    by reflexivity.
  split; [exact H|]. split; [vm_compute; reflexivity|].
  exact (proj1 (@clustered_corrs_as_long_as_rototranslations (Demo.pcl [])
                  Demo.index_votes Demo.fit_identity six_votes_loaded H)).
Defined.

(** * Further properties of the program *)

(** ** The matcher as a filter *)

Section MatcherShape.
Context {pcl : PCL}.

Lemma match_step_accepts md id :
  match_step md [] id = if accepts md id then [corr_of md id] else [].
Proof.
  destruct id as [i d]. unfold match_step, accepts, corr_of. simpl fst.
  simpl snd. destruct (isfinite (descriptor_at d 0)); simpl; [|reflexivity].
  destruct (Z.of_nat (length (nearestKSearch md d 1)) =? 1); simpl;
    [|reflexivity].
  destruct (F32.ltb _ max_sqr_dist); reflexivity.
Qed.

Lemma flat_map_accepts md (l : list (nat * DescriptorType)) :
  flat_map (match_step md []) l = map (corr_of md) (filter (accepts md) l).
Proof.
  induction l as [|id l IH]; [reflexivity|].
  cbn [flat_map filter]. rewrite match_step_accepts, IH.
  destruct (accepts md id); reflexivity.
Qed.

(** X1.  The loop of findModelSpaceCorrespondences appends, in the order of
    the scene, exactly one Correspondence for every scene descriptor that
    passes the tests of lines 231 and 236, and nothing else. *)
Theorem match_descriptors_is_a_filter
    (md sd : list DescriptorType) (corrs : Correspondences) :
  match_descriptors md sd corrs =
  corrs ++ map (corr_of md) (filter (accepts md) (indexed sd)).
Proof.
  unfold match_descriptors. rewrite match_loop, flat_map_accepts.
  reflexivity.
Qed.

(** X2.  A Correspondence is emitted for the scene keypoint [i] exactly when
    its descriptor has a finite first entry and the k=1 search returns one
    neighbour at a squared distance below 0.25; the Correspondence then
    holds that neighbour, [i] and that distance. *)
Theorem emitted_iff_accepted
    (md sd : list DescriptorType) (c : Correspondence) :
  In c (match_descriptors md sd []) <->
  exists i d j dist,
    nth_error sd i = Some d /\
    isfinite (descriptor_at d 0) = true /\
    nearestKSearch md d 1 = [(j, dist)] /\
    F32.ltb dist max_sqr_dist = true /\
    c = mkCorr j (static_cast_int (Z.of_nat i)) dist.
Proof.
  split.
  - intros H. apply match_descriptors_inv in H.
    destruct H as (i & d & j & dist & H1 & H2 & H3 & H4 & H5).
    exists i, d, j, dist. auto.
  - intros (i & d & j & dist & Hd & Hf & Hs & Hlt & ->).
    unfold match_descriptors. rewrite match_loop. cbn [app].
    apply in_flat_map. exists (i, d). split; [now apply In_indexed|].
    rewrite match_step_accepts. unfold accepts, corr_of. cbn [fst snd].
    rewrite Hf, Hs. cbn [length nth fst snd andb Z.eqb Z.of_nat Pos.of_succ_nat Pos.eqb].
    rewrite Hlt. now left.
Qed.

Lemma emitted_indices_sorted md (l : list DescriptorType) (s : nat) :
  Z.of_nat (s + length l) <= 2 ^ 31 ->
  StronglySorted Z.lt
    (map index_match
         (flat_map (match_step md []) (combine (seq s (length l)) l))).
Proof.
  revert s. induction l as [|d l IH]; intros s Hb;
    cbn [length seq combine flat_map].
  - constructor.
  - rewrite map_app. simpl length in Hb.
    assert (Hrest : StronglySorted Z.lt (map index_match
              (flat_map (match_step md []) (combine (seq (S s) (length l)) l))))
      by (apply IH; lia).
    pose proof (match_step_length md (s, d)) as Hlen.
    destruct (match_step md [] (s, d)) as [|c [|c' cs]] eqn:E;
      simpl in Hlen; try lia; cbn [map app]; [exact Hrest|].
    constructor; [exact Hrest|].
    assert (Hc : index_match c = Z.of_nat s).
    { assert (In c (match_step md [] (s, d))) as Hin by (rewrite E; now left).
      apply match_step_inv in Hin.
      destruct Hin as (_ & j & dist & _ & -> & _). simpl.
      apply static_cast_int_small. lia. }
    apply Forall_forall. intros z Hz.
    apply in_map_iff in Hz. destruct Hz as (c2 & <- & Hin2).
    apply emitted_index in Hin2. destruct Hin2 as (i & Hi & Hc2).
    rewrite static_cast_int_small in Hc2 by lia. lia.
Qed.

(** X3.  The Correspondences come out in strictly increasing order of scene
    keypoint index (for a scene of at most 2^31 descriptors). *)
Theorem scene_indices_increase (md sd : list DescriptorType) :
  Z.of_nat (length sd) <= 2 ^ 31 ->
  StronglySorted Z.lt (map index_match (match_descriptors md sd [])).
Proof.
  intros Hb. unfold match_descriptors. rewrite match_loop. cbn [app].
  apply (emitted_indices_sorted md sd 0). exact Hb.
Qed.

Lemma corrs_after_matching g :
  model_scene_corrs (clouds (findModelSpaceCorrespondences g)) =
  model_scene_corrs (clouds g) ++
  match_descriptors (model_descriptors (clouds g))
                    (scene_descriptors (clouds g)) [].
Proof.
  unfold findModelSpaceCorrespondences. cbn [clouds set_clouds set_corrs
    model_scene_corrs].
  unfold match_descriptors. rewrite !match_loop. reflexivity.
Qed.

(** X4.  findModelSpaceCorrespondences only appends to the global list: what
    the list held before stays in front, and running the stage a second
    time appends the same new Correspondences once more. *)
Theorem matching_twice_duplicates (g : Globals) :
  let found := match_descriptors (model_descriptors (clouds g))
                                 (scene_descriptors (clouds g)) [] in
  model_scene_corrs (clouds (findModelSpaceCorrespondences g)) =
  model_scene_corrs (clouds g) ++ found /\
  model_scene_corrs
    (clouds (findModelSpaceCorrespondences (findModelSpaceCorrespondences g))) =
  model_scene_corrs (clouds g) ++ found ++ found.
Proof.
  intros found. split; [apply corrs_after_matching|].
  rewrite (corrs_after_matching (findModelSpaceCorrespondences g)).
  rewrite (corrs_after_matching g), <- app_assoc. reflexivity.
Qed.

End MatcherShape.

(** A scene of two equal descriptors and a model of one: increasing indices. *)
Lemma scene_indices_increase_witness :
  let sd := [Demo.shot []; Demo.shot []] in
  Z.of_nat (length sd) <= 2 ^ 31 /\
  StronglySorted Z.lt
    (map index_match (@match_descriptors (Demo.pcl []) [Demo.shot []] sd [])).
Proof.
  intros sd.
  assert (H1 : Z.of_nat (length sd) <= 2 ^ 31) by (vm_compute; discriminate).
  split; [exact H1|].
  exact (@scene_indices_increase (Demo.pcl []) [Demo.shot []] sd H1).
Defined.

(** ** Edge cases of the resolution *)

Lemma mul_nan (a : F32.t) : F32.mul a S754_nan = S754_nan.
Proof. destruct a; reflexivity. Qed.

Section ResolutionEdges.
Context {pcl : PCL}.

Lemma no_finite_x_nothing_counted (cloud : Cloud) (l : list (nat * PointType)) :
  (forall ip, In ip l -> finite_x (snd ip) = false) ->
  filter (counted finite_x cloud) l = [].
Proof.
  induction l as [|ip l IH]; intros H; [reflexivity|].
  cbn [filter]. unfold counted at 1. rewrite (H ip) by now left.
  simpl. apply IH. intros ip' Hin. apply H. now right.
Qed.

(** X5.  On a cloud with no point whose x coordinate is finite (the empty
    cloud among them) the resolution is 0 whatever the search returns, and
    setUpResolution changes nothing. *)
Theorem no_finite_point_no_scaling (g : Globals) :
  (forall p, In p (model (clouds g)) -> finite_x p = false) ->
  computeCloudResolution (model (clouds g)) = F64.zero /\
  model_resolution g = F32.zero /\
  setUpResolution g = g.
Proof.
  intros H.
  assert (E : computeCloudResolution (model (clouds g)) = F64.zero).
  { rewrite computeCloudResolution_mean.
    unfold mean_second_neighbour_distance, second_neighbour_distances.
    rewrite no_finite_x_nothing_counted; [reflexivity|].
    intros [i p] Hin. apply H. unfold indexed in Hin.
    eapply in_combine_r, Hin. }
  assert (E2 : model_resolution g = F32.zero)
    by (unfold model_resolution; rewrite E; reflexivity).
  split; [exact E|]. split; [exact E2|].
  unfold setUpResolution. rewrite E2.
  rewrite scale_params_zero by reflexivity.
  destruct g; reflexivity.
Qed.

(** X6.  When the resolution is NaN, setUpResolution turns the five radii
    into NaN and leaves the clustering threshold as it was. *)
Theorem nan_resolution_spoils_the_radii (g : Globals) :
  model_resolution g = S754_nan ->
  params (setUpResolution g) =
  mkParams S754_nan S754_nan S754_nan S754_nan S754_nan
           (cg_thresh_ (params g)).
Proof.
  intros H. unfold setUpResolution. rewrite H. cbn [params set_params].
  rewrite scale_params_nonzero by reflexivity.
  now rewrite !mul_nan.
Qed.

End ResolutionEdges.

(** A model of two points with a NaN x coordinate. *)
Lemma no_finite_point_no_scaling_witness :
  (forall p, In p (model (clouds all_nan_loaded)) -> finite_x p = false) /\
  @setUpResolution (Demo.pcl []) all_nan_loaded = all_nan_loaded.
Proof.
  assert (H : forall p, In p (model (clouds all_nan_loaded)) ->
                        finite_x p = false).
  { intros p [<-|[<-|[]]]; reflexivity. }
  split; [exact H|].
  exact (proj2 (proj2 (@no_finite_point_no_scaling (Demo.pcl [])
                         all_nan_loaded H))).
Defined.

(** A model whose first point has a NaN y coordinate: the resolution is
    NaN. *)
Lemma nan_resolution_spoils_the_radii_witness :
  @model_resolution (Demo.pcl []) nan_y_loaded = S754_nan /\
  model_ss_ (params (@setUpResolution (Demo.pcl []) nan_y_loaded)) = S754_nan /\
  cg_thresh_ (params (@setUpResolution (Demo.pcl []) nan_y_loaded)) =
  F32.of_Z 5.
Proof.
  assert (H : @model_resolution (Demo.pcl []) nan_y_loaded = S754_nan)
    by (vm_compute; reflexivity).
  split; [exact H|].
  rewrite (@nan_resolution_spoils_the_radii (Demo.pcl []) nan_y_loaded H).
  split; reflexivity.
Defined.

(** ** Loading, and the accesses of the output stages *)

Lemma for_each_fault {A : Type} (body : A -> M unit) (l : list A) (w : World) :
  (forall a, reads_only (body a)) ->
  (exists a, In a l /\ body a w = Fault w) ->
  for_each body l w = Fault w.
Proof.
  intros Hr. induction l as [|a l IH]; intros (b & Hin & Hb); [destruct Hin|].
  simpl. unfold bind.
  destruct (Hr a w) as [[[] E]|E]; rewrite E; [|reflexivity].
  apply IH. destruct Hin as [->|Hin]; [congruence|]. now exists b.
Qed.

Lemma at_int_in_range {A : Type} (v : list A) (i : Z) (w : World) :
  0 <= i < Z.of_nat (length v) -> exists a, at_int v i w = Done a w.
Proof.
  intros H. unfold at_int, index.
  destruct (Z.ltb_spec i 0) as [|_]; [lia|].
  destruct (nth_error v (Z.to_nat i)) as [a|] eqn:E; [now exists a|].
  apply nth_error_None in E. lia.
Qed.

Section OutputStages.
Context {pcl : PCL}.

Lemma loadClouds_model_missing (w : World) :
  loadPCDFile (model_filename_ (opts (globals w))) = None ->
  loadClouds w = Done false w.
Proof.
  intros Em. unfold loadClouds, bind, get. cbv beta iota. now rewrite Em.
Qed.

Lemma loadClouds_scene_missing (w : World) (m : Cloud) :
  loadPCDFile (model_filename_ (opts (globals w))) = Some m ->
  loadPCDFile (scene_filename_ (opts (globals w))) = None ->
  loadClouds w =
  Done false (mkWorld (set_clouds (set_model m (clouds (globals w))) (globals w))
                      (printed w)).
Proof.
  intros Em Es. unfold loadClouds, bind, get, modify. cbv beta iota.
  rewrite Em. cbn [globals printed]. now rewrite Es.
Qed.



Lemma outputResults_body_ok (r : Results) (w : World) (i : nat) :
  (i < length (rototranslations r))%nat ->
  (i < length (clustered_corrs r))%nat ->
  (_ <- index (clustered_corrs r) i ;;
   _ <- index (rototranslations r) i ;; ret tt) w = Done tt w.
Proof.
  intros H1 H2. unfold bind, index.
  destruct (nth_error (clustered_corrs r) i) eqn:E1;
    [|apply nth_error_None in E1; lia].
  destruct (nth_error (rototranslations r) i) eqn:E2;
    [reflexivity|apply nth_error_None in E2; lia].
Qed.

(** X8.  outputResults never changes the state.  It completes when there
    are at least as many clustered correspondence sets as transforms, and
    runs into an access out of range when there are fewer. *)
Theorem outputResults_bounds (w : World) :
  let r := results (globals w) in
  ((length (rototranslations r) <= length (clustered_corrs r))%nat ->
   outputResults w = Done tt w) /\
  ((length (clustered_corrs r) < length (rototranslations r))%nat ->
   outputResults w = Fault w).
Proof.
  intros r. split; intros H; unfold outputResults, bind at 1, get; fold r.
  - apply for_each_in_bounds. intros i Hi. apply in_seq in Hi.
    apply outputResults_body_ok; lia.
  - apply for_each_fault.
    + intros i. repeat (apply reads_only_bind; [auto with reads|intros ?]).
      auto with reads.
    + exists (length (clustered_corrs r)). split; [apply in_seq; lia|].
      unfold bind at 1, index.
      replace (nth_error (clustered_corrs r) (length (clustered_corrs r)))
        with (@None Correspondences); [reflexivity|].
      symmetry. apply nth_error_None. lia.
Qed.


(** X10.  With the display of correspondences, visualization completes when
    every transform has its correspondence set and every Correspondence of
    these sets holds valid positions in the displayed model keypoints and
    in the scene keypoints. *)
Theorem visualization_in_range (w : World) :
  let g := globals w in
  let r := results g in
  show_correspondences_ (opts g) = true ->
  (length (rototranslations r) <= length (clustered_corrs r))%nat ->
  (forall i cs c,
     (i < length (rototranslations r))%nat ->
     nth_error (clustered_corrs r) i = Some cs -> In c cs ->
     corr_in_range (length (off_scene_keypoints g))
                   (length (scene_keypoints (clouds g))) c) ->
  visualization w = Done tt w.
Proof.
  intros g r Hshow Hlen Hrange. unfold visualization, bind at 1, get.
  fold g. fold r. fold (off_scene_keypoints g).
  apply for_each_in_bounds. intros i Hi. apply in_seq in Hi.
  unfold bind at 1, index at 1.
  destruct (nth_error (rototranslations r) i) eqn:E;
    [|apply nth_error_None in E; lia].
  rewrite Hshow. unfold bind at 1, index at 1.
  destruct (nth_error (clustered_corrs r) i) as [cs|] eqn:Ecs;
    [|apply nth_error_None in Ecs; lia].
  apply for_each_in_bounds. intros j Hj. apply in_seq in Hj.
  unfold bind at 1, index at 1.
  destruct (nth_error cs j) as [c|] eqn:Ec;
    [|apply nth_error_None in Ec; lia].
  destruct (Hrange i cs c) as [Hq Hm];
    [lia|exact Ecs|eapply nth_error_In, Ec|].
  unfold ret at 1. cbv beta iota.
  destruct (at_int_in_range (off_scene_keypoints g) (index_query c) w Hq)
    as [a Ea].
  destruct (at_int_in_range (scene_keypoints (clouds g)) (index_match c) w Hm)
    as [b Eb].
  unfold bind. rewrite Ea, Eb. reflexivity.
Qed.

End OutputStages.

(** ** Whole runs *)

Section WholeRuns.
Context {pcl : PCL}.

(** The four ways a run can go. *)
Lemma run_cases (argv : list string) :
  run argv = Exit 0 begun \/
  run argv = Exit (-1) begun \/
  (exists g, run argv = Done (-1) (mkWorld g ["Recognition begin"]) /\
             model_scene_corrs (clouds g) = []) \/
  (exists m s,
     loadPCDFile (model_filename_ (opts (parsed argv))) = Some m /\
     loadPCDFile (scene_filename_ (opts (parsed argv))) = Some s /\
     run argv =
     pipeline
       (mkWorld (set_clouds (mkClouds m [] s [] [] [] [] [] []) (parsed argv))
                ["Recognition begin"])).
Proof.
  destruct (find_switch argv "-h") eqn:H; [left; now apply main_help|].
  destruct (Nat.eq_dec (length (parse_file_extension_argument argv ".pcd")) 2)
    as [Hn|Hn]; [|right; left; now apply main_filenames_missing].
  right. right.
  destruct (loadPCDFile (model_filename_ (opts (parsed argv)))) as [m|] eqn:Em.
  - destruct (loadPCDFile (scene_filename_ (opts (parsed argv)))) as [s|] eqn:Es.
    + right. exists m, s. split; [reflexivity|]. split; [reflexivity|].
      now apply main_loaded.
    + left. eexists. rewrite (main_parsed argv H Hn). unfold bind.
      rewrite (loadClouds_scene_missing
                 (mkWorld (parsed argv) ["Recognition begin"]) m Em Es).
      split; reflexivity.
  - left. eexists. rewrite (main_parsed argv H Hn). unfold bind.
    rewrite (loadClouds_model_missing
               (mkWorld (parsed argv) ["Recognition begin"]) Em).
    split; reflexivity.
Qed.

(** X11.  The way a run ends tells what it printed: a run that returns 0 has
    printed every stage line and the output line, a run that returns
    otherwise returns -1 and has printed the first line only, a run that
    leaves through exit does so with 0 or -1 before any stage and with
    the globals untouched, and an access out of range can only happen after
    the clustering. *)
Theorem ending_tells_the_lines (argv : list string) :
  (forall code w, run argv = Done code w ->
     (code = 0 /\ printed w = all_lines) \/
     (code = -1 /\ printed w = ["Recognition begin"])) /\
  (forall code w, run argv = Exit code w ->
     w = begun /\ (code = 0 \/ code = -1)) /\
  (forall w, run argv = Fault w ->
     printed w = "Recognition begin" :: stage_lines \/ printed w = all_lines).
Proof.
  destruct (run_cases argv) as [E|[E|[(g & E & _)|(m & s & _ & _ & E)]]];
    rewrite E.
  - repeat split; try discriminate.
    + inversion H; reflexivity.
    + inversion H; auto.
  - repeat split; try discriminate.
    + inversion H; reflexivity.
    + inversion H; auto.
  - repeat split; try discriminate.
    intros code w H. inversion H; subst. right. auto.
  - match goal with |- context [pipeline ?w0] =>
      destruct (pipeline_outcome w0) as [P|[P|P]]; rewrite P end;
      repeat split; try discriminate.
    + intros w H. inversion H; subst. left. reflexivity.
    + intros w H. inversion H; subst. right. reflexivity.
    + intros code w H. inversion H; subst. left. split; reflexivity.
Qed.

Lemma clouds_after_clustering g :
  clouds (clusteringUsingHough3D g) = clouds g /\
  opts (clusteringUsingHough3D g) = opts g /\
  params (clusteringUsingHough3D g) = params g.
Proof.
  unfold clusteringUsingHough3D.
  match goal with |- context [recognize ?a ?b ?c ?d ?e ?f ?h] =>
    destruct (recognize a b c d e f h) end.
  repeat split.
Qed.

Lemma corrs_after_stages g :
  exists md sd,
    model_scene_corrs (clouds (after_stages g)) =
    model_scene_corrs (clouds g) ++ match_descriptors md sd [].
Proof.
  unfold after_stages.
  rewrite (proj1 (clouds_after_clustering _)), corrs_after_matching.
  eexists. eexists. reflexivity.
Qed.

Lemma final_globals_of_pipeline (w : World) :
  globals (final_world (pipeline w)) = after_stages (globals w).
Proof.
  destruct (pipeline_outcome w) as [P|[P|P]]; rewrite P; reflexivity.
Qed.

(** X12.  However a run ends, every Correspondence that the global list
    holds at the end has a squared distance strictly below 0.25. *)
Theorem final_correspondences_below_threshold
    (argv : list string) (c : Correspondence) :
  In c (model_scene_corrs (clouds (globals (final_world (run argv))))) ->
  F32.ltb (distance c) max_sqr_dist = true /\
  F32.leb max_sqr_dist (distance c) = false.
Proof.
  destruct (run_cases argv) as [E|[E|[(g & E & Hg)|(m & s & _ & _ & E)]]];
    rewrite E; cbn [final_world globals].
  - intros [].
  - intros [].
  - rewrite Hg. intros [].
  - rewrite final_globals_of_pipeline. cbn [globals].
    destruct (corrs_after_stages
                (set_clouds (mkClouds m [] s [] [] [] [] [] []) (parsed argv)))
      as (md & sd & ->).
    cbn [app clouds set_clouds model_scene_corrs]. intros H.
    apply match_descriptors_inv in H.
    destruct H as (i & d & j & dist & _ & _ & _ & -> & Hlt). simpl.
    split; [exact Hlt|apply ltb_not_leb, Hlt].
Qed.

(** X13.  In a run whose two clouds load, the stages leave the options and
    the two loaded clouds as they are, and the parameters at the end are the
    command-line values scaled once by the resolution of the loaded model
    (the clustering threshold being the command-line value itself). *)
Theorem loaded_run_configuration (argv : list string) (m s : Cloud) :
  find_switch argv "-h" = false ->
  length (parse_file_extension_argument argv ".pcd") = 2%nat ->
  loadPCDFile (model_filename_ (opts (parsed argv))) = Some m ->
  loadPCDFile (scene_filename_ (opts (parsed argv))) = Some s ->
  let g := globals (final_world (run argv)) in
  opts g = opts (parsed argv) /\
  model (clouds g) = m /\ scene (clouds g) = s /\
  params g = scale_params (F64.to_float (computeCloudResolution m))
                          (parse_params argv default_params) /\
  cg_thresh_ (params g) = parse_argument argv "--cg_thresh" (F32.of_Z 5).
Proof.
  intros H Hn Hm Hs g. subst g.
  rewrite (main_loaded argv m s H Hn Hm Hs), final_globals_of_pipeline.
  cbn [globals]. unfold after_stages.
  destruct (clouds_after_clustering
              (findModelSpaceCorrespondences
                 (computeDescriptorForKeypoints
                    (extractKeypoints
                       (computeNormals
                          (setUpResolution
                             (set_clouds (mkClouds m [] s [] [] [] [] [] [])
                                         (parsed argv))))))))
    as (Ec & Eo & Ep).
  rewrite Ec, Eo, Ep.
  repeat split.
  cbn. unfold scale_params.
  destruct (F32.neqb _ F32.zero); reflexivity.
Qed.

End WholeRuns.


(** Two instances, the first with one Correspondence between model
    keypoint 0 and scene keypoint 1. *)
Lemma visualization_in_range_witness :
  show_correspondences_ (opts two_instances_shown) = true /\
  @visualization (Demo.pcl []) (mkWorld two_instances_shown []) =
  Done tt (mkWorld two_instances_shown []).
Proof.
  split; [reflexivity|].
  refine (@visualization_in_range (Demo.pcl []) (mkWorld two_instances_shown [])
            eq_refl _ _).
  - simpl. lia.
  - intros i cs c Hi Hcs Hc. simpl in Hi.
    destruct i as [|[|i]]; simpl in Hcs; try lia;
      inversion Hcs; subst cs; [|destruct Hc].
    destruct Hc as [<-|[]]. vm_compute. repeat split; discriminate.
Defined.

(** The run on two clouds of two points, without options: it returns 0. *)
Lemma ending_tells_the_lines_witness :
  exists w, @run (Demo.pcl two_files) plain_argv = Done 0 w /\
            printed w = all_lines.
Proof.
  assert (E : exists w, @run (Demo.pcl two_files) plain_argv = Done 0 w)
    by (eexists; vm_compute; reflexivity).
  destruct E as [w E]. exists w. split; [exact E|].
  destruct (proj1 (@ending_tells_the_lines (Demo.pcl two_files) plain_argv)
              0 w E) as [[_ P]|[H _]]; [exact P|discriminate H].
Defined.

(** The same run: it ends with one Correspondence, at distance 0. *)
Lemma final_correspondences_below_threshold_witness :
  In (mkCorr 0 0 F32.zero)
     (model_scene_corrs
        (clouds (globals (final_world (@run (Demo.pcl two_files) plain_argv)))))
  /\ F32.ltb F32.zero max_sqr_dist = true.
Proof.
  assert (H : In (mkCorr 0 0 F32.zero)
                 (model_scene_corrs
                    (clouds (globals (final_world
                       (@run (Demo.pcl two_files) plain_argv))))))
    by (vm_compute; left; reflexivity).
  split; [exact H|].
  exact (proj1 (@final_correspondences_below_threshold (Demo.pcl two_files)
                  plain_argv _ H)).
Defined.

(** The run with --model_ss -1: the model sampling radius ends as -2, the
    threshold as 5. *)
Lemma loaded_run_configuration_witness :
  let g := globals (final_world (@run (Demo.pcl two_files) negative_radius_argv)) in
  model (clouds g) = two_points /\
  model_ss_ (params g) = F32.of_Z (-2) /\
  cg_thresh_ (params g) = F32.of_Z 5.
Proof.
  intros g.
  destruct (@loaded_run_configuration (Demo.pcl two_files) negative_radius_argv
              two_points two_points eq_refl eq_refl eq_refl eq_refl)
    as (_ & Hm & _ & Hp & Ht).
  fold g in Hm, Hp, Ht.
  split; [exact Hm|]. split.
  - rewrite Hp. vm_compute. reflexivity.
  - rewrite Ht. vm_compute. reflexivity.
Defined.

Section FinalState.
Context {pcl : PCL}.

(** X14.  When the global list of correspondences is empty at the start, the
    state the pipeline ends in is consistent: the normals, keypoints,
    descriptors, correspondences and results it holds are the ones PCL
    computes from the clouds, the parameters and the earlier results that
    are in that same final state (so every stage has used the parameters as
    scaled, and no later stage has overwritten what an earlier one used). *)
Theorem final_state_is_consistent (w : World) :
  model_scene_corrs (clouds (globals w)) = [] ->
  let g := globals (final_world (pipeline w)) in
  let c := clouds g in
  let p := params g in
  model_normals c = normal_estimation 10 (model c) /\
  scene_normals c = normal_estimation 10 (scene c) /\
  model_keypoints c = uniform_sampling (model c) (model_ss_ p) /\
  scene_keypoints c = uniform_sampling (scene c) (scene_ss_ p) /\
  model_descriptors c =
    shot_estimation (descr_rad_ p) (model_keypoints c) (model_normals c)
                    (model c) /\
  scene_descriptors c =
    shot_estimation (descr_rad_ p) (scene_keypoints c) (scene_normals c)
                    (scene c) /\
  model_scene_corrs c =
    match_descriptors (model_descriptors c) (scene_descriptors c) [] /\
  (rototranslations (results g), clustered_corrs (results g)) =
    recognize (cg_size_ p) (cg_thresh_ p)
      (model_keypoints c)
      (board_estimation (rf_rad_ p) (model_keypoints c) (model_normals c)
                        (model c))
      (scene_keypoints c)
      (board_estimation (rf_rad_ p) (scene_keypoints c) (scene_normals c)
                        (scene c))
      (model_scene_corrs c).
Proof.
  intros H0 g c p. subst p c g.
  rewrite final_globals_of_pipeline. unfold after_stages.
  set (g5 := findModelSpaceCorrespondences
               (computeDescriptorForKeypoints
                  (extractKeypoints
                     (computeNormals (setUpResolution (globals w)))))).
  assert (Hc : model_scene_corrs (clouds g5) =
               match_descriptors (model_descriptors (clouds g5))
                                 (scene_descriptors (clouds g5)) []).
  { unfold g5. rewrite corrs_after_matching.
    cbn [clouds set_clouds set_descriptors set_keypoints set_normals
         computeDescriptorForKeypoints extractKeypoints computeNormals
         setUpResolution set_params model_scene_corrs
         findModelSpaceCorrespondences model_descriptors scene_descriptors
         set_corrs].
    rewrite H0. reflexivity. }
  destruct (clouds_after_clustering g5) as (Ec & _ & Ep).
  rewrite Ec, Ep.
  repeat (split; [reflexivity|]).
  split; [exact Hc|].
  unfold clusteringUsingHough3D.
  match goal with |- context [recognize ?a ?b ?c ?d ?e ?f ?h] =>
    destruct (recognize a b c d e f h) eqn:R end.
  cbn [results set_results rototranslations clustered_corrs].
  rewrite <- R. reflexivity.
Qed.

End FinalState.

(** The pipeline on a model of two points and an empty scene. *)
Lemma final_state_is_consistent_witness :
  let g := globals (final_world
             (@pipeline (Demo.pcl []) (mkWorld two_points_loaded []))) in
  model_scene_corrs (clouds two_points_loaded) = [] /\
  model_keypoints (clouds g) =
  Sampler.decimate (model (clouds g)) (model_ss_ (params g)).
Proof.
  intros g. split; [reflexivity|].
  exact (proj1 (proj2 (proj2 (@final_state_is_consistent (Demo.pcl [])
                                (mkWorld two_points_loaded []) eq_refl)))).
Defined.
